(** * Bounty notification bot: polling, dedup and fanout

    A shallow embedding of [bot.py]: the persistence store ([Database]),
    the listing source client ([BountyAPI.fetch_bounties] under its
    [tenacity] retry decorator) and the poll loop of [BountyBot]
    ([poll_bounties], [process_bounty], [matches_location]).

    Python values that come out of the JSON decoder are modelled by the
    inductive type [json]; exceptions by the type [exn] (subclasses of
    Python's [Exception] only: cancellation is a [BaseException] and is
    not caught by any handler of the program); the outside world (HTTP
    server, store I/O, chat platform, clock) by an oracle [World] indexed
    by the number of external calls made so far. *)

From Stdlib Require Import List String Ascii ZArith NArith Bool Lia Arith.
From Stdlib Require Import DecimalString.
Import ListNotations.
Open Scope string_scope.
Open Scope Z_scope.

Set Implicit Arguments.

(** ** Exceptions and results *)

Inductive exn : Type :=
| ClientError (msg : string)      (* aiohttp.ClientError and its subclasses *)
| TimeoutError                    (* asyncio.TimeoutError *)
| RetryError (last : exn)         (* tenacity.RetryError, wraps the last failure *)
| IntegrityError                  (* aiosqlite.IntegrityError *)
| OperationalError (msg : string) (* any other store failure *)
| AttributeError
| TypeError
| ValueError (msg : string)       (* includes json.JSONDecodeError *)
| Forbidden                       (* discord.Forbidden *)
| OtherException (name : string).

Inductive result (A : Type) : Type :=
| Ok (a : A)
| Raise (e : exn).
Arguments Ok {A} a.
Arguments Raise {A} e.

(** ** Decoded JSON values

    A Python [dict] keeps its keys in insertion order and holds each key
    once; it is an association list here, read with [dict_get]. *)

#[warnings="-register-all"]
Inductive json : Type :=
| JNull
| JBool (b : bool)
| JInt (n : Z)
| JFloat (repr : string)          (* a float, carried by its Python repr *)
| JStr (s : string)
| JList (l : list json)
| JDict (d : list (string * json)).

Fixpoint dict_get (d : list (string * json)) (key : string) : option json :=
  match d with
  | [] => None
  | (k, v) :: rest => if String.eqb k key then Some v else dict_get rest key
  end.

(** [key in data] *)
Definition dict_has (d : list (string * json)) (key : string) : bool :=
  match dict_get d key with Some _ => true | None => false end.

(** [list(data.keys())] *)
Definition dict_keys (d : list (string * json)) : list string := map fst d.

(** ** Python strings

    [lower] is [str.lower] on ASCII text: the letters A to Z are mapped to
    a to z and every other character is left as it is. *)

Definition lower_ascii (c : ascii) : ascii :=
  let n := N_of_ascii c in
  if ((65 <=? n) && (n <=? 90))%N then ascii_of_N (n + 32) else c.

Fixpoint lower (s : string) : string :=
  match s with
  | EmptyString => EmptyString
  | String c rest => String (lower_ascii c) (lower rest)
  end.

(** [hay.startswith(needle)] *)
Fixpoint starts_with (needle hay : string) : bool :=
  match needle, hay with
  | EmptyString, _ => true
  | String _ _, EmptyString => false
  | String a n', String b h' => Ascii.eqb a b && starts_with n' h'
  end.

(** [needle in hay] on strings: some position of [hay] starts with
    [needle]. *)
Fixpoint str_in (needle hay : string) : bool :=
  starts_with needle hay ||
  match hay with
  | EmptyString => false
  | String _ h' => str_in needle h'
  end.


(** ** The matcher: [BountyBot.matches_location] *)

Definition matches_location (location keyword : string) : bool :=
  str_in (lower keyword) (lower location).


(** ** Python built-ins on decoded values *)

(** [len(v)]: defined on lists, strings and dicts. *)
Definition py_len (v : json) : result nat :=
  match v with
  | JList l => Ok (List.length l)
  | JStr s => Ok (String.length s)
  | JDict d => Ok (List.length d)
  | _ => Raise TypeError
  end.

Fixpoint chars_of (s : string) : list json :=
  match s with
  | EmptyString => []
  | String c rest => JStr (String c EmptyString) :: chars_of rest
  end.

(** [for x in v]: a list yields its elements, a string its characters, a
    dict its keys; nothing else is iterable. *)
Definition py_iter (v : json) : result (list json) :=
  match v with
  | JList l => Ok l
  | JStr s => Ok (chars_of s)
  | JDict d => Ok (map JStr (dict_keys d))
  | _ => Raise TypeError
  end.

(** [v.get(key, default)]: only a dict has the method. *)
Definition py_get (v : json) (key : string) (default : json) : result json :=
  match v with
  | JDict d => Ok (match dict_get d key with Some x => x | None => default end)
  | _ => Raise AttributeError
  end.

(** [str(v)]. The text Python prints for a list or a dict is its [repr],
    taken from the runtime ([repr_of]) rather than modelled. *)
Definition py_str (repr_of : json -> string) (v : json) : string :=
  match v with
  | JStr s => s
  | JInt n => NilZero.string_of_int (Z.to_int n)
  | JBool true => "True"
  | JBool false => "False"
  | JNull => "None"
  | JFloat r => r
  | JList _ | JDict _ => repr_of v
  end.

(** [if not s] on a string. *)
Definition is_empty (s : string) : bool :=
  match s with EmptyString => true | String _ _ => false end.

(** ** Configuration *)

Record Config : Type := {
  discord_token : string;
  api_url : string;
  api_key : option string;
  poll_interval : Z;
  api_timeout : Z;
  max_retries : Z;
  db_path : string;
  use_mock_api : bool
}.

Definition getenv_default (getenv : string -> option string) (name default : string) : string :=
  match getenv name with Some v => v | None => default end.

(** [Config.from_env]: only the token, the URL, the key and the mock flag
    are read; every other field keeps its dataclass default. *)
Definition from_env (getenv : string -> option string) : result Config :=
  let token := getenv "DISCORD_TOKEN" in
  let api_url := getenv_default getenv "API_URL" "http://localhost:8000/bounties" in
  let api_key := getenv "API_KEY" in
  let use_mock := String.eqb (lower (getenv_default getenv "USE_MOCK_API" "true")) "true" in
  match token with
  | None => Raise (ValueError "DISCORD_TOKEN environment variable not set")
  | Some tok =>
      if is_empty tok
      then Raise (ValueError "DISCORD_TOKEN environment variable not set")
      else Ok {| discord_token := tok; api_url := api_url; api_key := api_key;
                 poll_interval := 60; api_timeout := 10; max_retries := 3;
                 db_path := "bot.db"; use_mock_api := use_mock |}
  end.

(** ** The persistence store

    The three tables of [_create_tables], with the SQL statements of each
    method carried out on lists of rows. [UNIQUE(guild_id, keyword)] and
    the primary keys are enforced by the insert statements themselves. *)

Module Database.

Record sub_row : Type := {
  sub_id : Z;                   (* INTEGER PRIMARY KEY AUTOINCREMENT *)
  sub_guild : string;
  sub_keyword : string
}.

Record t : Type := {
  guild_settings : list (string * string);     (* guild_id, channel_id *)
  subscriptions : list sub_row;
  sub_seq : Z;                                 (* sqlite_sequence of subscriptions *)
  processed_bounties : list (string * Z)       (* bounty_id, processed_at *)
}.

(** A fresh database after [_create_tables]. *)
Definition create_tables : t :=
  {| guild_settings := []; subscriptions := []; sub_seq := 0; processed_bounties := [] |}.

(** INSERT OR REPLACE INTO guild_settings *)
Definition set_channel (d : t) (guild_id channel_id : string) : t :=
  {| guild_settings :=
       filter (fun r => negb (String.eqb (fst r) guild_id)) (guild_settings d)
       ++ [(guild_id, channel_id)];
     subscriptions := subscriptions d;
     sub_seq := sub_seq d;
     processed_bounties := processed_bounties d |}.

Fixpoint assoc (rows : list (string * string)) (key : string) : option string :=
  match rows with
  | [] => None
  | (k, v) :: rest => if String.eqb k key then Some v else assoc rest key
  end.

Definition get_channel (d : t) (guild_id : string) : option string :=
  assoc (guild_settings d) guild_id.

Definition get_all_guilds (d : t) : list (string * string) := guild_settings d.

Definition same_pair (guild_id keyword : string) (r : sub_row) : bool :=
  String.eqb (sub_guild r) guild_id && String.eqb (sub_keyword r) keyword.

(** INSERT INTO subscriptions (guild_id, keyword): the UNIQUE constraint
    rejects a pair that is already there. *)
Definition insert_subscription (d : t) (guild_id keyword : string) : result t :=
  if existsb (same_pair guild_id keyword) (subscriptions d)
  then Raise IntegrityError
  else Ok {| guild_settings := guild_settings d;
             subscriptions := subscriptions d ++
               [{| sub_id := sub_seq d + 1; sub_guild := guild_id; sub_keyword := keyword |}];
             sub_seq := sub_seq d + 1;
             processed_bounties := processed_bounties d |}.

(** [add_subscription]: the insert, with [IntegrityError] turned into
    [False]; any other error is not caught. *)
Definition add_subscription (d : t) (guild_id keyword : string) : result bool * t :=
  match insert_subscription d guild_id keyword with
  | Ok d' => (Ok true, d')
  | Raise IntegrityError => (Ok false, d)
  | Raise e => (Raise e, d)
  end.

(** DELETE FROM subscriptions WHERE guild_id = ? AND keyword = ? *)
Definition remove_subscription (d : t) (guild_id keyword : string) : t :=
  {| guild_settings := guild_settings d;
     subscriptions := filter (fun r => negb (same_pair guild_id keyword r)) (subscriptions d);
     sub_seq := sub_seq d;
     processed_bounties := processed_bounties d |}.

Definition get_subscriptions (d : t) (guild_id : string) : list string :=
  map sub_keyword (filter (fun r => String.eqb (sub_guild r) guild_id) (subscriptions d)).

Definition is_bounty_processed (d : t) (bounty_id : string) : bool :=
  existsb (fun r => String.eqb (fst r) bounty_id) (processed_bounties d).

(** INSERT OR IGNORE INTO processed_bounties (bounty_id): a row with the
    same primary key makes the statement do nothing. *)
Definition mark_bounty_processed (d : t) (now : Z) (bounty_id : string) : t :=
  if is_bounty_processed d bounty_id then d
  else {| guild_settings := guild_settings d;
          subscriptions := subscriptions d;
          sub_seq := sub_seq d;
          processed_bounties := processed_bounties d ++ [(bounty_id, now)] |}.

Definition processed_ids (d : t) : list string := map fst (processed_bounties d).

Definition sub_pairs (d : t) : list (string * string) :=
  map (fun r => (sub_guild r, sub_keyword r)) (subscriptions d).

End Database.

Open Scope list_scope.

(** ** The outside world

    Every external call (an HTTP request, a store statement, a
    notification) takes its outcome from the oracle at the current tick and
    advances the tick, so an outcome may depend on everything that
    happened before. *)

Inductive http_outcome : Type :=
| HttpRaises (e : exn)                          (* no response: the request raised *)
| HttpResponse (status : Z) (body : result json). (* status, and what resp.json() gives *)

Inductive store_op : Type :=
| OpIsProcessed (bounty_id : string)
| OpMarkProcessed (bounty_id : string)
| OpGetAllGuilds
| OpGetSubscriptions (guild_id : string).

(** What becomes of one call of [send_bounty_notification]. *)
Inductive sink_outcome : Type :=
| SinkNotFound                 (* get_channel returned None *)
| SinkDelivered                (* channel.send returned *)
| SinkForbidden                (* discord.Forbidden *)
| SinkError (e : exn).         (* any other exception in the body *)

Record World : Type := {
  http : nat -> http_outcome;
  store_fault : nat -> store_op -> option exn;   (* Some e: the statement raises e *)
  sink : nat -> sink_outcome;
  clock : nat -> Z;                              (* CURRENT_TIMESTAMP *)
  closed : nat -> bool;                          (* is_closed() *)
  repr_of : json -> string                       (* repr() of the Python runtime *)
}.

(** ** Observable events *)

Inductive log_entry : Type :=
| LogFetching
| LogRetrieved (n : nat)
| LogPollingError (e : exn)
| LogMissingId
| LogGuildError (guild_id : string) (e : exn)
| LogUnexpectedShape (keys : list string)
| LogAuthFailed
| LogRateLimit
| LogApiError (status : Z)
| LogTimeout (seconds : Z)
| LogClientError (e : exn)
| LogRetrying (attempt_number : Z)
| LogChannelNotFound (channel_id : string)
| LogSent (bounty_id : json) (channel_id : string)
| LogForbidden (channel_id : string)
| LogSendError (e : exn).

Inductive event : Type :=
| EvLog (l : log_entry)
| EvStore (op : store_op)
| EvHttpGet (url : string) (authorization : option string) (page per_page : Z)
| EvSleep (seconds : Z)
| EvNotify (channel_id : string) (bounty location : json).

(** ** The monad of the program: state, exceptions and a trace *)

Record state : Type := { db : Database.t; tick : nat }.

Definition M (A : Type) : Type := state -> result A * state * list event.

Definition ret {A} (a : A) : M A := fun s => (Ok a, s, []).

Definition raise {A} (e : exn) : M A := fun s => (Raise e, s, []).

Definition bind {A B} (m : M A) (k : A -> M B) : M B := fun s =>
  match m s with
  | (Ok a, s1, t1) => let '(r, s2, t2) := k a s1 in (r, s2, t1 ++ t2)
  | (Raise e, s1, t1) => (Raise e, s1, t1)
  end.

Notation "x <- m ;; k" := (bind m (fun x => k))
  (at level 61, m at next level, right associativity).
Notation "m ;;; k" := (bind m (fun _ => k))
  (at level 61, right associativity).

(** [try: m except Exception as e: h e] *)
Definition try_except {A} (m : M A) (h : exn -> M A) : M A := fun s =>
  match m s with
  | (Ok a, s1, t1) => (Ok a, s1, t1)
  | (Raise e, s1, t1) => let '(r, s2, t2) := h e s1 in (r, s2, t1 ++ t2)
  end.

(** [for x in xs: body x]: an exception leaves the loop. *)
Fixpoint for_each {A} (xs : list A) (body : A -> M unit) : M unit :=
  match xs with
  | [] => ret tt
  | x :: rest => body x ;;; for_each rest body
  end.

Definition lift {A} (r : result A) : M A := fun s => (r, s, []).

Definition emit (e : event) : M unit := fun s => (Ok tt, s, [e]).

Definition log (l : log_entry) : M unit := emit (EvLog l).

Definition sleep (seconds : Z) : M unit := emit (EvSleep seconds).

Definition next (s : state) : state := {| db := db s; tick := S (tick s) |}.

(** One statement on the store: it either raises, leaving the store as it
    was, or is carried out. *)
Definition store_call {A} (w : World) (op : store_op)
    (f : Database.t -> Z -> A * Database.t) : M A := fun s =>
  match store_fault w (tick s) op with
  | Some e => (Raise e, next s, [EvStore op])
  | None =>
      let '(a, d) := f (db s) (clock w (tick s)) in
      (Ok a, {| db := d; tick := S (tick s) |}, [EvStore op])
  end.

Definition is_bounty_processed (w : World) (bounty_id : string) : M bool :=
  store_call w (OpIsProcessed bounty_id)
    (fun d _ => (Database.is_bounty_processed d bounty_id, d)).

Definition mark_bounty_processed (w : World) (bounty_id : string) : M unit :=
  store_call w (OpMarkProcessed bounty_id)
    (fun d now => (tt, Database.mark_bounty_processed d now bounty_id)).

Definition get_all_guilds (w : World) : M (list (string * string)) :=
  store_call w OpGetAllGuilds (fun d _ => (Database.get_all_guilds d, d)).

Definition get_subscriptions (w : World) (guild_id : string) : M (list string) :=
  store_call w (OpGetSubscriptions guild_id)
    (fun d _ => (Database.get_subscriptions d guild_id, d)).

(** ** The retry library

    [tenacity] is a dependency, not code of the repository; these are the
    three strategies the decorator of [fetch_bounties] is built from, as the
    library defines them. *)

(** [stop_after_attempt(n)]: stop once [n] attempts have been made. *)
Definition stop_after_attempt (max_attempt_number attempt_number : Z) : bool :=
  attempt_number >=? max_attempt_number.

(** [wait_exponential(multiplier, min, max)]: after attempt [k] wait
    [multiplier * 2 ** (k - 1)] seconds, kept between [min] and [max]. *)
Definition wait_exponential (multiplier min max attempt_number : Z) : Z :=
  Z.max (Z.max 0 min) (Z.min (multiplier * 2 ^ (attempt_number - 1)) max).

(** [retry_if_exception_type((aiohttp.ClientError, asyncio.TimeoutError))] *)
Definition retry_if_exception_type (e : exn) : bool :=
  match e with
  | ClientError _ | TimeoutError => true
  | _ => false
  end.

(** The attempt numbers [first], [first + 1], ... ([count] of them). *)
Fixpoint attempts_from (first : Z) (count : nat) : list Z :=
  match count with
  | O => []
  | S n => first :: attempts_from (first + 1) n
  end.

(** The waits of the decorator of [fetch_bounties] when every one of
    [max_attempts] attempts fails: one after each attempt but the last. *)
Definition backoff_delays (max_attempts : Z) : list Z :=
  map (wait_exponential 1 2 10) (attempts_from 1 (Z.to_nat (max_attempts - 1))).

(** ** The listing source client: [BountyAPI] *)

Definition probe_keys : list string := ["bounties"; "data"; "results"; "items"].

(** [for key in keys: if key in data: return data[key]] *)
Fixpoint probe (keys : list string) (data : list (string * json)) : option json :=
  match keys with
  | [] => None
  | key :: rest =>
      if dict_has data key then dict_get data key else probe rest data
  end.

(** The branch of a 200 response, once the body is decoded. *)
Definition normalize (data : json) : M json :=
  match data with
  | JList _ => ret data
  | JDict d =>
      match probe probe_keys d with
      | Some v => ret v
      | None => log (LogUnexpectedShape (dict_keys d)) ;;; ret (JList [])
      end
  | _ => ret (JList [])
  end.

Definition http_get (w : World) (cfg : Config) (page per_page : Z) : M http_outcome :=
  fun s => (Ok (http w (tick s)), next s,
            [EvHttpGet (api_url cfg)
               (match api_key cfg with
                | Some k => Some ("Bearer " ++ k)%string
                | None => None
                end) page per_page]).

(** The body of [fetch_bounties]: one attempt. *)
Definition fetch_attempt (w : World) (cfg : Config) (page per_page : Z) : M json :=
  try_except
    (o <- http_get w cfg page per_page ;;
     match o with
     | HttpRaises e => raise e
     | HttpResponse status body =>
         if status =? 200 then
           data <- lift body ;;
           normalize data
         else if status =? 401 then
           log LogAuthFailed ;;; ret (JList [])
         else if status =? 429 then
           log LogRateLimit ;;; raise (ClientError "Rate limit exceeded")
         else
           log (LogApiError status) ;;; ret (JList [])
     end)
    (fun e =>
       match e with
       | TimeoutError => log (LogTimeout (api_timeout cfg)) ;;; raise e
       | ClientError _ => log (LogClientError e) ;;; raise e
       | _ => raise e
       end).

(** The decorator: call the body again after a retryable exception, until
    [stop_after_attempt] says stop. [fuel] bounds the number of further
    calls; [fetch_bounties] gives it what the stop strategy allows. *)
Fixpoint retrying (w : World) (cfg : Config) (page per_page : Z)
    (fuel : nat) (attempt_number : Z) : M json :=
  try_except (fetch_attempt w cfg page per_page)
    (fun e =>
       if negb (retry_if_exception_type e) then raise e
       else if stop_after_attempt (max_retries cfg) attempt_number
       then raise (RetryError e)
       else
         log (LogRetrying attempt_number) ;;;
         sleep (wait_exponential 1 2 10 attempt_number) ;;;
         match fuel with
         | O => raise (OtherException "out of fuel")
         | S fuel' => retrying w cfg page per_page fuel' (attempt_number + 1)
         end).

Definition fetch_bounties (w : World) (cfg : Config) (page per_page : Z) : M json :=
  retrying w cfg page per_page (Z.to_nat (max_retries cfg)) 1.

(** ** The bot: [BountyBot] *)

(** [send_bounty_notification]: the whole body (the channel lookup, the
    rendering of the embed, the send) is under [try ... except Exception],
    so it always returns; which of its log entries is written is the
    world's choice. *)
Definition send_bounty_notification (w : World)
    (channel_id : string) (bounty location : json) : M unit := fun s =>
  (Ok tt, next s,
   [EvNotify channel_id bounty location;
    EvLog (match sink w (tick s) with
           | SinkNotFound => LogChannelNotFound channel_id
           | SinkDelivered =>
               LogSent (match bounty with
                        | JDict d => match dict_get d "id" with Some v => v | None => JNull end
                        | _ => JNull
                        end) channel_id
           | SinkForbidden => LogForbidden channel_id
           | SinkError e => LogSendError e
           end)]).

(** The keyword loop of [process_bounty], with its [break]. A location
    that is not a string has no [lower]. *)
Fixpoint any_match (location : json) (keywords : list string) : result bool :=
  match keywords with
  | [] => Ok false
  | keyword :: rest =>
      match location with
      | JStr loc =>
          if matches_location loc keyword then Ok true else any_match location rest
      | _ => Raise AttributeError
      end
  end.

(** The body of the loop over the guilds. *)
Definition notify_guild (w : World) (bounty location : json)
    (guild : string * string) : M unit :=
  let '(guild_id, channel_id) := guild in
  try_except
    (keywords <- get_subscriptions w guild_id ;;
     matched <- lift (any_match location keywords) ;;
     if matched then send_bounty_notification w channel_id bounty location
     else ret tt)
    (fun e => log (LogGuildError guild_id e)).

Definition process_bounty (w : World) (bounty : json) : M unit :=
  id <- lift (py_get bounty "id" (JStr "")) ;;
  let bounty_id := py_str (repr_of w) id in
  if is_empty bounty_id then log LogMissingId
  else
    processed <- is_bounty_processed w bounty_id ;;
    if processed then ret tt
    else
      mark_bounty_processed w bounty_id ;;;
      location <- lift (py_get bounty "location" (JStr "Remote")) ;;
      guilds <- get_all_guilds w ;;
      for_each guilds (notify_guild w bounty location).

(** One turn of the [while] loop of [poll_bounties]. *)
Definition poll_cycle (w : World) (cfg : Config) : M unit :=
  try_except
    (log LogFetching ;;;
     bounties <- fetch_bounties w cfg 1 50 ;;
     n <- lift (py_len bounties) ;;
     log (LogRetrieved n) ;;;
     items <- lift (py_iter bounties) ;;
     for_each items (process_bounty w))
    (fun e => log (LogPollingError e)) ;;;
  sleep (poll_interval cfg).

(** [poll_bounties], once the client is ready, for at most [cycles] turns
    of the loop. *)
Fixpoint poll_bounties (w : World) (cfg : Config) (cycles : nat) : M unit :=
  match cycles with
  | O => ret tt
  | S n =>
      fun s =>
        if closed w (tick s) then (Ok tt, s, [])
        else (poll_cycle w cfg ;;; poll_bounties w cfg n) s
  end.

(** ** Reading a trace *)

(** The failures the decorator retries: the request raised a client error
    or timed out, or the server answered 429. *)
Definition is_transient (o : http_outcome) : bool :=
  match o with
  | HttpRaises e => retry_if_exception_type e
  | HttpResponse status _ => status =? 429
  end.

Definition is_notify (e : event) : bool :=
  match e with EvNotify _ _ _ => true | _ => false end.

Definition is_http (e : event) : bool :=
  match e with EvHttpGet _ _ _ _ => true | _ => false end.

Definition is_subscription_read (e : event) : bool :=
  match e with EvStore (OpGetSubscriptions _) => true | _ => false end.

Definition sleeps (t : list event) : list Z :=
  flat_map (fun e => match e with EvSleep n => [n] | _ => [] end) t.

(** [str(bounty.get("id", ""))] for a listing that is a dict. *)
Definition listing_id (w : World) (d : list (string * json)) : string :=
  py_str (repr_of w) (match dict_get d "id" with Some v => v | None => JStr "" end).

(** [bounty.get("location", "Remote")] for a listing that is a dict. *)
Definition listing_location (d : list (string * json)) : json :=
  match dict_get d "location" with Some v => v | None => JStr "Remote" end.

(** The first thing [process_bounty] lets the world see of a listing: the
    warning for a missing id, or the lookup of its id in the store. *)
Definition listing_mark (w : World) (bounty : json) : list event :=
  match bounty with
  | JDict d =>
      if is_empty (listing_id w d) then [EvLog LogMissingId]
      else [EvStore (OpIsProcessed (listing_id w d))]
  | _ => []
  end.

Definition is_listing_mark (e : event) : bool :=
  match e with
  | EvLog LogMissingId => true
  | EvStore (OpIsProcessed _) => true
  | _ => false
  end.

Definition is_log (e : event) : bool :=
  match e with EvLog _ => true | _ => false end.

Definition is_fetching (e : event) : bool :=
  match e with EvLog LogFetching => true | _ => false end.

Definition tenant_op (op : store_op) : bool :=
  match op with OpGetSubscriptions _ => true | _ => false end.

(** The number of calls of [send_bounty_notification] in a trace. *)
Definition sends (t : list event) : nat := List.length (filter is_notify t).

Definition result_of {A} (x : result A * state * list event) : result A := fst (fst x).
Definition state_of {A} (x : result A * state * list event) : state := snd (fst x).
Definition trace_of {A} (x : result A * state * list event) : list event := snd x.

(** ** Concrete configurations, worlds and stores

    Used to run the program on explicit inputs. *)

Definition default_config : Config :=
  {| discord_token := "token"; api_url := "http://localhost:8000/bounties";
     api_key := None; poll_interval := 60; api_timeout := 10; max_retries := 3;
     db_path := "bot.db"; use_mock_api := true |}.

(** A world whose server always answers [h], whose store and chat platform
    never fail. *)
Definition world_of (h : http_outcome) : World :=
  {| http := fun _ => h;
     store_fault := fun _ _ => None;
     sink := fun _ => SinkDelivered;
     clock := fun n => Z.of_nat n;
     closed := fun _ => false;
     repr_of := fun _ => "<repr>" |}.

Definition initial_state : state := {| db := Database.create_tables; tick := 0 |}.

Definition listing_1 : json := JDict [("id", JStr "1")].

Definition listing_remote : json :=
  JDict [("id", JStr "1"); ("location", JStr "Remote")].

(** Two tenants with a channel each; the first subscribed to "remote", the
    second to "Berlin" and to the empty keyword. *)
Definition store_two_tenants : Database.t :=
  {| Database.guild_settings := [("g1", "100"); ("g2", "200")];
     Database.subscriptions :=
       [ {| Database.sub_id := 1; Database.sub_guild := "g1"; Database.sub_keyword := "remote" |};
         {| Database.sub_id := 2; Database.sub_guild := "g2"; Database.sub_keyword := "Berlin" |};
         {| Database.sub_id := 3; Database.sub_guild := "g2"; Database.sub_keyword := "" |} ];
     Database.sub_seq := 3;
     Database.processed_bounties := [] |}.

Definition two_tenants : state := {| db := store_two_tenants; tick := 0 |}.

(** The server returns the one listing; every delivery fails. *)
Definition world_failing_sink : World :=
  {| http := fun _ => HttpResponse 200 (Ok (JList [listing_remote]));
     store_fault := fun _ _ => None;
     sink := fun _ => SinkError (OtherException "HTTPException");
     clock := fun n => Z.of_nat n;
     closed := fun _ => false;
     repr_of := fun _ => "<repr>" |}.

(** The server returns the listing twice over; reading the subscriptions
    of the first tenant always fails. *)
Definition world_failing_reads : World :=
  {| http := fun _ => HttpResponse 200
                        (Ok (JList [listing_remote; JDict [("id", JInt 2)]]));
     store_fault := fun _ op =>
       match op with
       | OpGetSubscriptions guild_id =>
           if String.eqb guild_id "g1" then Some (OperationalError "disk I/O error")
           else None
       | _ => None
       end;
     sink := fun _ => SinkDelivered;
     clock := fun n => Z.of_nat n;
     closed := fun _ => false;
     repr_of := fun _ => "<repr>" |}.

(** ** Invariants of the store

    What the schema guarantees of every database the program builds: the
    primary keys and the UNIQUE pair are distinct, and no subscription
    carries an id beyond the AUTOINCREMENT counter. *)

Definition store_wf (d : Database.t) : Prop :=
  NoDup (Database.processed_ids d)
  /\ NoDup (Database.sub_pairs d)
  /\ NoDup (map fst (Database.guild_settings d))
  /\ NoDup (map Database.sub_id (Database.subscriptions d))
  /\ Forall (fun r => Database.sub_id r <= Database.sub_seq d) (Database.subscriptions d).

(** The statements that change the store, as the command surface and the
    poll loop issue them. *)
Inductive store_update : Type :=
| SetChannel (guild_id channel_id : string)
| AddSubscription (guild_id keyword : string)
| RemoveSubscription (guild_id keyword : string)
| MarkProcessed (now : Z) (bounty_id : string).

Definition apply_update (d : Database.t) (u : store_update) : Database.t :=
  match u with
  | SetChannel guild_id channel_id => Database.set_channel d guild_id channel_id
  | AddSubscription guild_id keyword => snd (Database.add_subscription d guild_id keyword)
  | RemoveSubscription guild_id keyword => Database.remove_subscription d guild_id keyword
  | MarkProcessed now bounty_id => Database.mark_bounty_processed d now bounty_id
  end.

(** Whether some keyword of the guild occurs in the location. *)
Definition tenant_matches (d : Database.t) (loc : string) (guild : string * string) : bool :=
  existsb (matches_location loc) (Database.get_subscriptions d (fst guild)).

Definition is_string (v : json) : bool :=
  match v with JStr _ => true | _ => false end.

Definition is_dict (v : json) : bool :=
  match v with JDict _ => true | _ => false end.

(** The store answers every call but [get_all_guilds]. *)
Definition world_failing_guild_list : World :=
  {| http := fun _ => HttpResponse 200 (Ok (JList [listing_remote]));
     store_fault := fun _ op =>
       match op with
       | OpGetAllGuilds => Some (OperationalError "database is locked")
       | _ => None
       end;
     sink := fun _ => SinkDelivered;
     clock := fun n => Z.of_nat n;
     closed := fun _ => false;
     repr_of := fun _ => "<repr>" |}.

(** The server fails twice with a timeout, then answers. *)
Definition world_recovering : World :=
  {| http := fun n =>
       if (n <? 2)%nat then HttpRaises TimeoutError
       else HttpResponse 200 (Ok (JDict [("bounties", JList [listing_remote])]));
     store_fault := fun _ _ => None;
     sink := fun _ => SinkDelivered;
     clock := fun n => Z.of_nat n;
     closed := fun _ => false;
     repr_of := fun _ => "<repr>" |}.

(** The number of HTTP requests in a trace. *)
Definition requests (t : list event) : nat := List.length (filter is_http t).

(** ** Slices

    [l[start:stop]] as Python computes it: a negative index counts from
    the end, and both ends are brought into the list. *)

Definition slice_index (len i : Z) : Z :=
  if i <? 0 then Z.max (len + i) 0 else Z.min i len.

Definition py_slice {A} (l : list A) (start stop : Z) : list A :=
  let len := Z.of_nat (List.length l) in
  let a := slice_index len start in
  let b := slice_index len stop in
  firstn (Z.to_nat (b - a)) (skipn (Z.to_nat a) l).

(** [v[key]] for a string key: only a dict can be indexed so. *)
Definition py_item (v : json) (key : string) : result json :=
  match v with
  | JDict d =>
      match dict_get d key with
      | Some x => Ok x
      | None => Raise (OtherException "KeyError")
      end
  | _ => Raise TypeError
  end.

(** ** The mock listing server ([mock_api.py])

    [generate_bounties] draws its listings at random and by the clock; the
    endpoints are modelled on the list it returns, [all_bounties]. The
    bounds of the query parameters are those the endpoint declares. *)

Module MockAPI.

Inductive api_response : Type :=
| Json (status : Z) (body : json)
| Unprocessable                      (* 422: a query parameter out of its bounds *)
| InternalError (e : exn).           (* the handler raised *)

(** [b["location"].lower()], before the lowering. *)
Definition location_of (b : json) : result string :=
  match py_item b "location" with
  | Ok (JStr loc) => Ok loc
  | Ok _ => Raise AttributeError
  | Raise e => Raise e
  end.

(** [[b for b in all_bounties if location.lower() in b["location"].lower()]] *)
Fixpoint filter_by_location (location : string) (all_bounties : list json)
  : result (list json) :=
  match all_bounties with
  | [] => Ok []
  | b :: rest =>
      match location_of b with
      | Raise e => Raise e
      | Ok loc =>
          match filter_by_location location rest with
          | Raise e => Raise e
          | Ok kept =>
              Ok (if str_in (lower location) (lower loc) then b :: kept else kept)
          end
      end
  end.

Definition get_bounties (all_bounties : list json) (page per_page : Z)
    (location : option string) : api_response :=
  if (page <? 1) || (per_page <? 1) || (100 <? per_page) then Unprocessable
  else
    match (match location with
           | Some loc =>
               if is_empty loc then Ok all_bounties
               else filter_by_location loc all_bounties
           | None => Ok all_bounties
           end) with
    | Raise e => InternalError e
    | Ok all_bounties =>
        let start_idx := (page - 1) * per_page in
        let end_idx := start_idx + per_page in
        let paginated_bounties := py_slice all_bounties start_idx end_idx in
        let total := Z.of_nat (List.length all_bounties) in
        Json 200
          (JDict
             [("bounties", JList paginated_bounties);
              ("pagination",
               JDict [("page", JInt page); ("per_page", JInt per_page);
                      ("total", JInt total);
                      ("total_pages", JInt ((total + per_page - 1) / per_page))]);
              ("filters",
               JDict [("location",
                       match location with Some loc => JStr loc | None => JNull end)])])
    end.

(** [bounty["id"] == bounty_id], the right side being a string. *)
Definition id_is (bounty : json) (bounty_id : string) : result bool :=
  match py_item bounty "id" with
  | Ok (JStr s) => Ok (String.eqb s bounty_id)
  | Ok _ => Ok false
  | Raise e => Raise e
  end.

Fixpoint find_bounty (all_bounties : list json) (bounty_id : string)
  : result (option json) :=
  match all_bounties with
  | [] => Ok None
  | bounty :: rest =>
      match id_is bounty bounty_id with
      | Raise e => Raise e
      | Ok true => Ok (Some bounty)
      | Ok false => find_bounty rest bounty_id
      end
  end.

Definition get_bounty (all_bounties : list json) (bounty_id : string) : api_response :=
  match find_bounty all_bounties bounty_id with
  | Raise e => InternalError e
  | Ok (Some bounty) => Json 200 bounty
  | Ok None => Json 404 (JDict [("error", JStr "Bounty not found")])
  end.

(** What the server puts on the wire, as the client of [bot.py] meets it;
    the bodies of the error answers are never decoded by that client. *)
Definition on_the_wire (r : api_response) (error_body : result json) : http_outcome :=
  match r with
  | Json status body => HttpResponse status (Ok body)
  | Unprocessable => HttpResponse 422 error_body
  | InternalError _ => HttpResponse 500 error_body
  end.

(** The listings of a page, read off the answer. *)
Definition page_of (r : api_response) : list json :=
  match r with
  | Json 200 (JDict (("bounties", JList items) :: _)) => items
  | _ => []
  end.

Definition total_pages_of (r : api_response) : Z :=
  match r with
  | Json 200 (JDict [_; ("pagination", JDict [_; _; _; ("total_pages", JInt n)]); _]) => n
  | _ => 0
  end.

End MockAPI.

(** ** The embed of a listing: [create_bounty_embed]

    The record holds what the function hands to [discord.Embed] and to
    [add_field], in that order. *)

Record Embed : Type := {
  embed_title : string;
  embed_description : json;
  embed_url : option json;
  embed_timestamp : Z;
  embed_color : string;
  embed_fields : list (string * json * bool);      (* name, value, inline *)
  embed_footer : string
}.

(** Truth value of a decoded value, as [if v] takes it. *)
Definition py_truthy (v : json) : bool :=
  match v with
  | JNull => false
  | JBool b => b
  | JInt n => negb (n =? 0)
  | JFloat r => negb (String.eqb r "0.0" || String.eqb r "-0.0")
  | JStr s => negb (is_empty s)
  | JList l => match l with [] => false | _ => true end
  | JDict d => match d with [] => false | _ => true end
  end.

(** [description[:497] + "..."] when [len(description) > 500]. Only a
    string can be both sliced and joined to a string; a dict raises on the
    slice (a [KeyError] from Python 3.12 on). *)
Definition shorten (description : json) : result json :=
  match py_len description with
  | Raise e => Raise e
  | Ok n =>
      if (500 <? n)%nat then
        match description with
        | JStr s => Ok (JStr (String.substring 0 497 s ++ "...")%string)
        | _ => Raise TypeError
        end
      else Ok description
  end.

Fixpoint strings_of (l : list json) : result (list string) :=
  match l with
  | [] => Ok []
  | JStr s :: rest =>
      match strings_of rest with
      | Ok ss => Ok (s :: ss)
      | Raise e => Raise e
      end
  | _ :: _ => Raise TypeError
  end.

Fixpoint letters (s : string) : list string :=
  match s with
  | EmptyString => []
  | String c rest => String c EmptyString :: letters rest
  end.

(** [", ".join(skills[:5])]: the items of a list must be strings; a
    string is joined letter by letter. *)
Definition join_skills (skills : json) : result string :=
  match skills with
  | JList l =>
      match strings_of (py_slice l 0 5) with
      | Ok ss => Ok (String.concat ", " ss)
      | Raise e => Raise e
      end
  | JStr s => Ok (String.concat ", " (letters (String.substring 0 5 s)))
  | _ => Raise TypeError
  end.

Definition create_bounty_embed (repr : json -> string) (now : Z)
    (bounty location : json) : result Embed :=
  match py_get bounty "title" (JStr "New Bounty"),
        py_get bounty "description" (JStr "No description provided"),
        py_get bounty "url" (JStr ""),
        py_get bounty "reward" (JStr "Not specified"),
        py_get bounty "deadline" (JStr "Not specified") with
  | Ok title, Ok description, Ok url, Ok reward, Ok deadline =>
      match shorten description with
      | Raise e => Raise e
      | Ok description =>
          let fields :=
            [("📍 Location", location, true);
             ("💵 Reward", reward, true);
             ("⏰ Deadline", deadline, true)] in
          let finish fields :=
            Ok {| embed_title := ("💰 " ++ py_str repr title)%string;
                  embed_description := description;
                  embed_url := if py_truthy url then Some url else None;
                  embed_timestamp := now;
                  embed_color := "green";
                  embed_fields := fields;
                  embed_footer := "RentAHuman Bounty Alert" |} in
          match py_get bounty "skills" JNull with
          | Raise e => Raise e
          | Ok skills =>
              if py_truthy skills then
                match join_skills skills with
                | Raise e => Raise e
                | Ok joined => finish (fields ++ [("🛠️ Skills", JStr joined, false)])
                end
              else finish fields
          end
      end
  | _, _, _, _, _ => Raise AttributeError
  end.

(** ** The command surface

    The slash commands of [bot.py], run against the store and the
    interaction they answer. A store statement or a reply may raise: the
    shell says which, by the number of calls made so far. *)

Module Commands.

Record Shell : Type := {
  store_fails : nat -> option exn;
  reply_fails : nat -> option exn
}.

Inductive cmd_event : Type :=
| Replied (message : string) (ephemeral : bool)   (* send_message returned *)
| ReplyFailed (message : string) (e : exn)        (* send_message raised *)
| LoggedInfo (message : string)
| LoggedError (context : string) (e : exn).

Definition C (A : Type) : Type := state -> result A * state * list cmd_event.

Definition cret {A} (a : A) : C A := fun s => (Ok a, s, []).

Definition craise {A} (e : exn) : C A := fun s => (Raise e, s, []).

Definition cbind {A B} (m : C A) (k : A -> C B) : C B := fun s =>
  match m s with
  | (Ok a, s1, t1) => let '(r, s2, t2) := k a s1 in (r, s2, t1 ++ t2)
  | (Raise e, s1, t1) => (Raise e, s1, t1)
  end.

Local Notation "x <~ m ;; k" := (cbind m (fun x => k))
  (at level 61, m at next level, right associativity).
Local Notation "m ;;~ k" := (cbind m (fun _ => k))
  (at level 61, right associativity).

(** [try: m except Exception as e: h e] *)
Definition ctry {A} (m : C A) (h : exn -> C A) : C A := fun s =>
  match m s with
  | (Ok a, s1, t1) => (Ok a, s1, t1)
  | (Raise e, s1, t1) => let '(r, s2, t2) := h e s1 in (r, s2, t1 ++ t2)
  end.

Definition say (e : cmd_event) : C unit := fun s => (Ok tt, s, [e]).

(** One statement on the store. *)
Definition store {A} (sh : Shell) (f : Database.t -> A * Database.t) : C A := fun s =>
  match store_fails sh (tick s) with
  | Some e => (Raise e, next s, [])
  | None => let '(a, d) := f (db s) in (Ok a, {| db := d; tick := S (tick s) |}, [])
  end.

(** [await interaction.response.send_message(message, ephemeral=True)] *)
Definition reply (sh : Shell) (message : string) : C unit := fun s =>
  match reply_fails sh (tick s) with
  | Some e => (Raise e, next s, [ReplyFailed message e])
  | None => (Ok tt, next s, [Replied message true])
  end.

Definition newline : string := String (ascii_of_nat 10) EmptyString.

(** [has_manage_guild]: without the permission the user is told so and
    the check fails, so the command is not run. *)
Definition has_manage_guild (sh : Shell) (manage_guild : bool) (command : C unit) : C unit :=
  if manage_guild then command
  else
    reply sh "❌ You need 'Manage Server' permission to use this command." ;;~
    craise (OtherException "CheckFailure").

Definition setchannel (sh : Shell) (guild_id channel_id mention : string) : C unit :=
  ctry
    (store sh (fun d => (tt, Database.set_channel d guild_id channel_id)) ;;~
     reply sh ("✅ Notification channel set to " ++ mention)%string ;;~
     say (LoggedInfo ("Channel set for guild " ++ guild_id ++ ": " ++ channel_id)%string))
    (fun e =>
       say (LoggedError "Error setting channel" e) ;;~
       reply sh "❌ Failed to set channel. Please try again.").

(** [if not channel_id]: no row, or an empty string. *)
Definition no_channel (channel_id : option string) : bool :=
  match channel_id with
  | None => true
  | Some c => is_empty c
  end.

Definition subscribe (sh : Shell) (guild_id keyword : string) : C unit :=
  ctry
    (channel_id <~ store sh (fun d => (Database.get_channel d guild_id, d)) ;;
     if no_channel channel_id then
       reply sh "⚠️ Please set a notification channel first using `/setchannel`"
     else
       added <~ (r <~ store sh (fun d => Database.add_subscription d guild_id keyword) ;;
                 match r with Ok b => cret b | Raise e => craise e end) ;;
       if added then
         reply sh ("✅ Subscribed to bounties in **" ++ keyword ++ "**")%string ;;~
         say (LoggedInfo ("Guild " ++ guild_id ++ " subscribed to '" ++ keyword ++ "'")%string)
       else
         reply sh ("ℹ️ Already subscribed to **" ++ keyword ++ "**")%string)
    (fun e =>
       say (LoggedError "Error subscribing" e) ;;~
       reply sh "❌ Failed to subscribe. Please try again.").

Definition unsubscribe (sh : Shell) (guild_id keyword : string) : C unit :=
  ctry
    (store sh (fun d => (tt, Database.remove_subscription d guild_id keyword)) ;;~
     reply sh ("✅ Unsubscribed from **" ++ keyword ++ "**")%string ;;~
     say (LoggedInfo ("Guild " ++ guild_id ++ " unsubscribed from '" ++ keyword ++ "'")%string))
    (fun e =>
       say (LoggedError "Error unsubscribing" e) ;;~
       reply sh "❌ Failed to unsubscribe. Please try again.").

Definition subscriptions (sh : Shell) (guild_id : string) : C unit :=
  ctry
    (keywords <~ store sh (fun d => (Database.get_subscriptions d guild_id, d)) ;;
     match keywords with
     | [] =>
         reply sh ("📭 No active subscriptions." ++ newline
                   ++ "Use `/subscribe` to add one!")%string
     | _ :: _ =>
         reply sh ("📍 **Active subscriptions:**" ++ newline
                   ++ String.concat newline (map (fun kw => "• " ++ kw) keywords))%string
     end)
    (fun e =>
       say (LoggedError "Error listing subscriptions" e) ;;~
       reply sh "❌ Failed to retrieve subscriptions.").

(** The commands as they are registered: the first three behind the
    permission check, the listing open to everybody. *)
Inductive command : Type :=
| SetChannelCmd (guild_id channel_id mention : string)
| SubscribeCmd (guild_id keyword : string)
| UnsubscribeCmd (guild_id keyword : string)
| SubscriptionsCmd (guild_id : string).

Definition run (sh : Shell) (manage_guild : bool) (c : command) : C unit :=
  match c with
  | SetChannelCmd guild_id channel_id mention =>
      has_manage_guild sh manage_guild (setchannel sh guild_id channel_id mention)
  | SubscribeCmd guild_id keyword =>
      has_manage_guild sh manage_guild (subscribe sh guild_id keyword)
  | UnsubscribeCmd guild_id keyword =>
      has_manage_guild sh manage_guild (unsubscribe sh guild_id keyword)
  | SubscriptionsCmd guild_id => subscriptions sh guild_id
  end.

Definition result_of {A} (x : result A * state * list cmd_event) : result A := fst (fst x).
Definition state_of {A} (x : result A * state * list cmd_event) : state := snd (fst x).
Definition trace_of {A} (x : result A * state * list cmd_event) : list cmd_event := snd x.

Definition replies (t : list cmd_event) : list string :=
  flat_map (fun e => match e with Replied m _ => [m] | _ => [] end) t.

(** A shell in which nothing fails. *)
Definition calm : Shell := {| store_fails := fun _ => None; reply_fails := fun _ => None |}.

End Commands.

(** The answer a command gives when its [except] branch is taken. *)
Definition failure_message (c : Commands.command) : string :=
  match c with
  | Commands.SetChannelCmd _ _ _ => "❌ Failed to set channel. Please try again."
  | Commands.SubscribeCmd _ _ => "❌ Failed to subscribe. Please try again."
  | Commands.UnsubscribeCmd _ _ => "❌ Failed to unsubscribe. Please try again."
  | Commands.SubscriptionsCmd _ => "❌ Failed to retrieve subscriptions."
  end.

Definition is_guarded (c : Commands.command) : bool :=
  match c with
  | Commands.SubscriptionsCmd _ => false
  | _ => true
  end.

(** ** The poller task: [on_ready] and [close]

    The bot keeps one handle, [poller_task], on the task that runs
    [poll_bounties]. [tasks] holds every task ever created, with what the
    event loop knows of it: a cancelled task is done only once the event
    loop has let it see the cancellation. *)

Module Lifecycle.

Inductive task_state : Type := Running | Cancelling | Finished.

Record Bot : Type := {
  tasks : list task_state;
  poller_task : option nat         (* index into [tasks] *)
}.

Definition start : Bot := {| tasks := []; poller_task := None |}.

(** [task.done()] *)
Definition done (b : Bot) (i : nat) : bool :=
  match nth_error (tasks b) i with
  | Some Finished => true
  | _ => false
  end.

Fixpoint set_nth (l : list task_state) (i : nat) (t : task_state) : list task_state :=
  match l, i with
  | [], _ => []
  | _ :: rest, O => t :: rest
  | x :: rest, S j => x :: set_nth rest j t
  end.

(** [on_ready]: the command tree is synced (which may raise, leaving
    the handler), then a poller is created unless one is there that is not
    done. *)
Definition on_ready (sync_ok : bool) (b : Bot) : Bot :=
  if sync_ok then
    if match poller_task b with
       | None => true
       | Some i => done b i
       end
    then {| tasks := tasks b ++ [Running]; poller_task := Some (List.length (tasks b)) |}
    else b
  else b.

(** [close]: the poller, if any, is asked to cancel. *)
Definition close (b : Bot) : Bot :=
  match poller_task b with
  | Some i =>
      match nth_error (tasks b) i with
      | Some Running => {| tasks := set_nth (tasks b) i Cancelling; poller_task := Some i |}
      | _ => b
      end
  | None => b
  end.

(** The event loop lets task [i] end: its loop has seen [is_closed], or
    it has seen its cancellation. *)
Definition settle (i : nat) (b : Bot) : Bot :=
  {| tasks := set_nth (tasks b) i Finished; poller_task := poller_task b |}.

Inductive step : Type :=
| Ready (sync_ok : bool)
| Close
| Settle (i : nat).

Definition apply_step (b : Bot) (e : step) : Bot :=
  match e with
  | Ready sync_ok => on_ready sync_ok b
  | Close => close b
  | Settle i => settle i b
  end.

Definition is_live (t : task_state) : bool :=
  match t with Finished => false | _ => true end.

(** The pollers that are not done. *)
Definition live (b : Bot) : nat := List.length (filter is_live (tasks b)).

End Lifecycle.

(** Every task that is not done is the one the handle points to. *)
Definition handle_holds_the_live (b : Lifecycle.Bot) : Prop :=
  forall i t,
    nth_error (Lifecycle.tasks b) i = Some t ->
    Lifecycle.is_live t = true ->
    Lifecycle.poller_task b = Some i.

(** ** Theorems *)




Lemma str_in_empty hay : str_in "" hay = true.
Proof. destruct hay; reflexivity. Qed.

Lemma matches_empty_keyword location : matches_location location "" = true.
Proof. unfold matches_location. simpl. apply str_in_empty. Qed.

(** ** The store *)

Lemma existsb_same_pair guild_id keyword rows :
  existsb (Database.same_pair guild_id keyword) rows = true
  <-> In (guild_id, keyword)
         (map (fun r => (Database.sub_guild r, Database.sub_keyword r)) rows).
Proof.
  rewrite existsb_exists, in_map_iff. unfold Database.same_pair.
  split; intros [r H]; exists r.
  - destruct H as [Hin H]. apply andb_true_iff in H as [H1 H2].
    apply String.eqb_eq in H1, H2. now subst.
  - destruct H as [H Hin]. injection H as <- <-. now rewrite !String.eqb_refl.
Qed.







Lemma is_bounty_processed_In d bounty_id :
  Database.is_bounty_processed d bounty_id = true <-> In bounty_id (Database.processed_ids d).
Proof.
  unfold Database.is_bounty_processed, Database.processed_ids.
  rewrite existsb_exists, in_map_iff. split.
  - intros [r [Hin H]]. apply String.eqb_eq in H. now exists r.
  - intros [r [H Hin]]. exists r. split; [assumption | now apply String.eqb_eq].
Qed.

Lemma mark_makes_processed d now bounty_id :
  Database.is_bounty_processed (Database.mark_bounty_processed d now bounty_id) bounty_id = true.
Proof.
  unfold Database.mark_bounty_processed.
  destruct (Database.is_bounty_processed d bounty_id) eqn:E; [assumption |].
  unfold Database.is_bounty_processed. simpl.
  rewrite existsb_app. simpl. rewrite String.eqb_refl. now rewrite orb_true_r.
Qed.

Lemma mark_keeps_processed d now bounty_id other :
  Database.is_bounty_processed d other = true ->
  Database.is_bounty_processed (Database.mark_bounty_processed d now bounty_id) other = true.
Proof.
  intros H. unfold Database.mark_bounty_processed.
  destruct (Database.is_bounty_processed d bounty_id); [assumption |].
  unfold Database.is_bounty_processed in *. simpl. rewrite existsb_app, H. reflexivity.
Qed.

Lemma mark_twice d now now' bounty_id :
  Database.mark_bounty_processed (Database.mark_bounty_processed d now bounty_id) now' bounty_id
  = Database.mark_bounty_processed d now bounty_id.
Proof.
  unfold Database.mark_bounty_processed at 1. now rewrite mark_makes_processed.
Qed.

Lemma mark_counts_once d now bounty_id :
  NoDup (Database.processed_ids d) ->
  count_occ string_dec
    (Database.processed_ids (Database.mark_bounty_processed d now bounty_id)) bounty_id = 1%nat.
Proof.
  intros Hnd. unfold Database.mark_bounty_processed.
  destruct (Database.is_bounty_processed d bounty_id) eqn:E.
  - apply is_bounty_processed_In in E.
    pose proof (proj1 (NoDup_count_occ string_dec _) Hnd bounty_id) as Hle.
    apply (count_occ_In string_dec) in E. lia.
  - assert (Hnot : ~ In bounty_id (Database.processed_ids d)).
    { intros Hin. apply is_bounty_processed_In in Hin. congruence. }
    unfold Database.processed_ids in *. simpl. rewrite map_app, count_occ_app. simpl.
    apply (count_occ_not_In string_dec) in Hnot. rewrite Hnot.
    destruct (string_dec bounty_id bounty_id); [reflexivity | contradiction].
Qed.

Lemma mark_keeps_unique d now bounty_id :
  NoDup (Database.processed_ids d) ->
  NoDup (Database.processed_ids (Database.mark_bounty_processed d now bounty_id)).
Proof.
  intros Hnd. unfold Database.mark_bounty_processed.
  destruct (Database.is_bounty_processed d bounty_id) eqn:E; [assumption |].
  unfold Database.processed_ids in *. simpl. rewrite map_app. simpl.
  apply NoDup_app; [assumption | repeat constructor; intros [] |].
  intros x Hx [<- | []].
  assert (Database.is_bounty_processed d bounty_id = true)
    by now apply is_bounty_processed_In.
  congruence.
Qed.

(** Marking the same listing again and again, at the given times. *)
Lemma mark_many d bounty_id now nows :
  fold_left (fun acc t => Database.mark_bounty_processed acc t bounty_id) nows
    (Database.mark_bounty_processed d now bounty_id)
  = Database.mark_bounty_processed d now bounty_id.
Proof.
  induction nows as [|t nows IH]; simpl; [reflexivity |].
  now rewrite mark_twice.
Qed.

Lemma mark_keeps_tables d now bounty_id :
  Database.guild_settings (Database.mark_bounty_processed d now bounty_id)
  = Database.guild_settings d
  /\ Database.subscriptions (Database.mark_bounty_processed d now bounty_id)
     = Database.subscriptions d.
Proof.
  unfold Database.mark_bounty_processed.
  destruct (Database.is_bounty_processed d bounty_id); split; reflexivity.
Qed.

(** ** Running the monad *)

Lemma result_of_run {A} (r : result A) s t : result_of (r, s, t) = r.
Proof. reflexivity. Qed.

Lemma state_of_run {A} (r : result A) s t : state_of (r, s, t) = s.
Proof. reflexivity. Qed.

Lemma trace_of_run {A} (r : result A) s t : trace_of (r, s, t) = t.
Proof. reflexivity. Qed.

Lemma sends_app t1 t2 : sends (t1 ++ t2) = (sends t1 + sends t2)%nat.
Proof. unfold sends. now rewrite filter_app, length_app. Qed.

Lemma sleeps_app t1 t2 : sleeps (t1 ++ t2) = sleeps t1 ++ sleeps t2.
Proof. unfold sleeps. now rewrite flat_map_app. Qed.

Lemma for_each_cons {A} (x : A) xs body s :
  for_each (x :: xs) body s
  = match body x s with
    | (Ok _, s1, t1) =>
        (result_of (for_each xs body s1), state_of (for_each xs body s1),
         t1 ++ trace_of (for_each xs body s1))
    | (Raise e, s1, t1) => (Raise e, s1, t1)
    end.
Proof.
  simpl. unfold bind. destruct (body x s) as [[[a | e] s1] t1]; [| reflexivity].
  destruct (for_each xs body s1) as [[r s2] t2]. reflexivity.
Qed.

(** ** One tenant, and the loop over the tenants *)

Section Fanout.
Variable w : World.
Variables bounty location : json.

Lemma notify_guild_returns guild_id channel_id s :
  result_of (notify_guild w bounty location (guild_id, channel_id) s) = Ok tt
  /\ db (state_of (notify_guild w bounty location (guild_id, channel_id) s)) = db s
  /\ filter is_subscription_read
       (trace_of (notify_guild w bounty location (guild_id, channel_id) s))
     = [EvStore (OpGetSubscriptions guild_id)].
Proof.
  unfold notify_guild, try_except, bind, get_subscriptions, store_call, lift,
    send_bounty_notification, ret, log, emit.
  destruct (store_fault w (tick s) (OpGetSubscriptions guild_id)); simpl; [auto |].
  destruct (any_match location _) as [[|] | e]; simpl; auto.
Qed.

Lemma notify_guild_read_fails guild_id channel_id s e :
  store_fault w (tick s) (OpGetSubscriptions guild_id) = Some e ->
  notify_guild w bounty location (guild_id, channel_id) s
  = (Ok tt, next s,
     [EvStore (OpGetSubscriptions guild_id); EvLog (LogGuildError guild_id e)]).
Proof.
  intros H.
  unfold notify_guild, try_except, bind, get_subscriptions, store_call, log, emit.
  rewrite H. reflexivity.
Qed.

Lemma notify_guild_matched guild_id channel_id s :
  store_fault w (tick s) (OpGetSubscriptions guild_id) = None ->
  any_match location (Database.get_subscriptions (db s) guild_id) = Ok true ->
  notify_guild w bounty location (guild_id, channel_id) s
  = (Ok tt, next (next s),
     EvStore (OpGetSubscriptions guild_id)
     :: trace_of (send_bounty_notification w channel_id bounty location (next s))).
Proof.
  intros H Hm.
  unfold notify_guild, try_except, bind, get_subscriptions, store_call, lift.
  rewrite H. simpl. rewrite Hm. reflexivity.
Qed.

Lemma fanout_returns guilds : forall s,
  result_of (for_each guilds (notify_guild w bounty location) s) = Ok tt
  /\ db (state_of (for_each guilds (notify_guild w bounty location) s)) = db s
  /\ filter is_subscription_read
       (trace_of (for_each guilds (notify_guild w bounty location) s))
     = map (fun g => EvStore (OpGetSubscriptions (fst g))) guilds.
Proof.
  induction guilds as [|[guild_id channel_id] rest IH]; intros s.
  - repeat split.
  - rewrite for_each_cons.
    destruct (notify_guild_returns guild_id channel_id s) as (Hr & Hd & Ht).
    destruct (notify_guild w bounty location (guild_id, channel_id) s)
      as [[[[] | e] s1] t1]; [| discriminate].
    unfold result_of, state_of, trace_of in *. simpl in *.
    destruct (IH s1) as (Hr' & Hd' & Ht').
    unfold result_of, state_of, trace_of in *.
    repeat split.
    + assumption.
    + congruence.
    + rewrite filter_app, Ht, Ht'. reflexivity.
Qed.

End Fanout.

(** ** One listing *)

Section Listing.
Variable w : World.
Variable d : list (string * json).
Variable s : state.

Let bounty_id := listing_id w d.
Let marked := Database.mark_bounty_processed (db s) (clock w (S (tick s))) bounty_id.

Ltac run_listing :=
  unfold process_bounty, bind, lift, py_get, is_bounty_processed,
    mark_bounty_processed, get_all_guilds, store_call, log, emit, ret;
  fold (listing_id w d); fold bounty_id; simpl.

Lemma process_bounty_missing_id :
  is_empty bounty_id = true ->
  process_bounty w (JDict d) s = (Ok tt, s, [EvLog LogMissingId]).
Proof. intros H. run_listing. rewrite H. reflexivity. Qed.

Lemma process_bounty_lookup_fails e :
  is_empty bounty_id = false ->
  store_fault w (tick s) (OpIsProcessed bounty_id) = Some e ->
  process_bounty w (JDict d) s = (Raise e, next s, [EvStore (OpIsProcessed bounty_id)]).
Proof. intros H1 H2. run_listing. rewrite H1, H2. reflexivity. Qed.

Lemma process_bounty_seen :
  is_empty bounty_id = false ->
  store_fault w (tick s) (OpIsProcessed bounty_id) = None ->
  Database.is_bounty_processed (db s) bounty_id = true ->
  process_bounty w (JDict d) s = (Ok tt, next s, [EvStore (OpIsProcessed bounty_id)]).
Proof. intros H1 H2 H3. run_listing. rewrite H1, H2, H3. reflexivity. Qed.

Lemma process_bounty_mark_fails e :
  is_empty bounty_id = false ->
  store_fault w (tick s) (OpIsProcessed bounty_id) = None ->
  Database.is_bounty_processed (db s) bounty_id = false ->
  store_fault w (S (tick s)) (OpMarkProcessed bounty_id) = Some e ->
  process_bounty w (JDict d) s
  = (Raise e, next (next s),
     [EvStore (OpIsProcessed bounty_id); EvStore (OpMarkProcessed bounty_id)]).
Proof. intros H1 H2 H3 H4. run_listing. rewrite H1, H2, H3. simpl. rewrite H4. reflexivity. Qed.

Lemma process_bounty_new :
  is_empty bounty_id = false ->
  store_fault w (tick s) (OpIsProcessed bounty_id) = None ->
  Database.is_bounty_processed (db s) bounty_id = false ->
  store_fault w (S (tick s)) (OpMarkProcessed bounty_id) = None ->
  process_bounty w (JDict d) s
  = match store_fault w (S (S (tick s))) OpGetAllGuilds with
    | Some e =>
        (Raise e, {| db := marked; tick := S (S (S (tick s))) |},
         [EvStore (OpIsProcessed bounty_id); EvStore (OpMarkProcessed bounty_id);
          EvStore OpGetAllGuilds])
    | None =>
        let x := for_each (Database.get_all_guilds marked)
                   (notify_guild w (JDict d) (listing_location d))
                   {| db := marked; tick := S (S (S (tick s))) |} in
        (result_of x, state_of x,
         [EvStore (OpIsProcessed bounty_id); EvStore (OpMarkProcessed bounty_id);
          EvStore OpGetAllGuilds] ++ trace_of x)
    end.
Proof.
  intros H1 H2 H3 H4. run_listing. rewrite H1, H2, H3. simpl. rewrite H4. simpl.
  destruct (store_fault w (S (S (tick s))) OpGetAllGuilds); [reflexivity |].
  fold marked. fold (listing_location d).
  destruct (for_each _ _ _) as [[r s'] t]. reflexivity.
Qed.

End Listing.

(** ** The listing source client *)

Lemma only_logs_quiet t :
  forallb is_log t = true ->
  sends t = 0%nat /\ sleeps t = [] /\ filter is_http t = [].
Proof.
  induction t as [|e t IH]; simpl; [auto |].
  intros H. apply andb_true_iff in H as [He Ht].
  destruct (IH Ht) as (H1 & H2 & H3).
  destruct e; try discriminate. unfold sends in *. simpl. auto.
Qed.

Lemma probe_first keys : forall data pre key post v,
  keys = pre ++ key :: post ->
  Forall (fun k => dict_get data k = None) pre ->
  dict_get data key = Some v ->
  probe keys data = Some v.
Proof.
  intros data pre. revert keys.
  induction pre as [|k pre IH]; intros keys key post v -> Hpre Hkey; simpl;
    unfold dict_has.
  - now rewrite Hkey.
  - inversion Hpre as [|? ? Hk Hrest]; subst. rewrite Hk. eapply IH; eauto.
Qed.

Lemma probe_none keys data :
  Forall (fun k => dict_get data k = None) keys -> probe keys data = None.
Proof.
  induction 1 as [|k keys Hk _ IH]; simpl; [reflexivity |].
  unfold dict_has. now rewrite Hk.
Qed.

Lemma normalize_returns data s :
  exists v t, normalize data s = (Ok v, s, t) /\ forallb is_log t = true.
Proof.
  destruct data; try (unfold normalize, ret; eexists; eexists; split; reflexivity).
  unfold normalize. destruct (probe probe_keys d);
    unfold bind, log, emit, ret; eexists; eexists; split; reflexivity.
Qed.

Section Source.
Variable w : World.
Variable cfg : Config.
Variables page per_page : Z.

Let request : event :=
  EvHttpGet (api_url cfg)
    (match api_key cfg with Some k => Some ("Bearer " ++ k)%string | None => None end)
    page per_page.

Ltac run_attempt :=
  unfold fetch_attempt, try_except, bind, http_get, lift, raise, log, emit, ret;
  fold request.

(** A decoded body under status 200 is normalized and returned. *)
Lemma fetch_attempt_200 s data :
  http w (tick s) = HttpResponse 200 (Ok data) ->
  fetch_attempt w cfg page per_page s
  = (result_of (normalize data (next s)), next s,
     request :: trace_of (normalize data (next s))).
Proof.
  intros H. run_attempt. rewrite H. simpl.
  destruct (normalize_returns data (next s)) as (v & t & -> & _). reflexivity.
Qed.



Lemma fetch_attempt_other_status s status body :
  http w (tick s) = HttpResponse status body ->
  status <> 200 -> status <> 401 -> status <> 429 ->
  fetch_attempt w cfg page per_page s
  = (Ok (JList []), next s, [request; EvLog (LogApiError status)]).
Proof.
  intros H H1 H2 H3. run_attempt. rewrite H.
  apply Z.eqb_neq in H1, H2, H3. rewrite H1, H2, H3. reflexivity.
Qed.

(** A 200 response whose body cannot be decoded: the exception of
    [resp.json()] leaves the attempt. *)
Lemma fetch_attempt_undecodable s e :
  http w (tick s) = HttpResponse 200 (Raise e) ->
  result_of (fetch_attempt w cfg page per_page s) = Raise e.
Proof. intros H. run_attempt. rewrite H. simpl. destruct e; reflexivity. Qed.

(** Whatever happens, one attempt is one request followed by log
    entries, and leaves the store alone. *)
Lemma fetch_attempt_shape s :
  exists r t,
    fetch_attempt w cfg page per_page s = (r, next s, request :: t)
    /\ forallb is_log t = true.
Proof.
  run_attempt. destruct (http w (tick s)) as [e | status body].
  - destruct e; simpl; eexists; eexists; split; reflexivity.
  - destruct (status =? 200).
    + destruct body as [data | e].
      * destruct (normalize_returns data (next s)) as (v & t & E & Ht).
        cbn [fst snd]. unfold lift, bind. rewrite E. simpl.
        exists (Ok v), t. split; [reflexivity | assumption].
      * destruct e; simpl; eexists; eexists; split; reflexivity.
    + destruct (status =? 401); [simpl; eexists; eexists; split; reflexivity |].
      destruct (status =? 429); simpl; eexists; eexists; split; reflexivity.
Qed.

Lemma retrying_unfold fuel attempt_number :
  retrying w cfg page per_page fuel attempt_number
  = try_except (fetch_attempt w cfg page per_page)
      (fun e =>
         if negb (retry_if_exception_type e) then raise e
         else if stop_after_attempt (max_retries cfg) attempt_number
         then raise (RetryError e)
         else
           log (LogRetrying attempt_number) ;;;
           sleep (wait_exponential 1 2 10 attempt_number) ;;;
           match fuel with
           | O => raise (OtherException "out of fuel")
           | S fuel' => retrying w cfg page per_page fuel' (attempt_number + 1)
           end).
Proof. destruct fuel; reflexivity. Qed.

(** The fuel [fetch_bounties] gives is enough: more of it changes
    nothing. *)
Lemma retrying_fuel_enough fuel : forall attempt_number s,
  max_retries cfg - attempt_number <= Z.of_nat fuel ->
  retrying w cfg page per_page (S fuel) attempt_number s
  = retrying w cfg page per_page fuel attempt_number s.
Proof.
  induction fuel as [|fuel IH]; intros k s Hfuel.
  - rewrite (retrying_unfold 1 k), (retrying_unfold 0 k). unfold try_except.
    destruct (fetch_attempt w cfg page per_page s) as [[[v | e] s1] t1]; [reflexivity |].
    destruct (negb (retry_if_exception_type e)); [reflexivity |].
    destruct (stop_after_attempt (max_retries cfg) k) eqn:Hstop; [reflexivity |].
    unfold stop_after_attempt in Hstop. rewrite Z.geb_leb in Hstop.
    apply Z.leb_gt in Hstop. simpl in Hfuel. lia.
  - rewrite (retrying_unfold (S (S fuel)) k), (retrying_unfold (S fuel) k). unfold try_except.
    destruct (fetch_attempt w cfg page per_page s) as [[[v | e] s1] t1]; [reflexivity |].
    destruct (negb (retry_if_exception_type e)); [reflexivity |].
    destruct (stop_after_attempt (max_retries cfg) k) eqn:Hstop; [reflexivity |].
    unfold stop_after_attempt in Hstop. rewrite Z.geb_leb in Hstop.
    apply Z.leb_gt in Hstop.
    unfold bind, log, sleep, emit. cbn [app].
    rewrite (IH (k + 1) s1) by lia. reflexivity.
Qed.

Lemma fetch_bounties_fuel s extra :
  retrying w cfg page per_page (extra + Z.to_nat (max_retries cfg)) 1 s
  = fetch_bounties w cfg page per_page s.
Proof.
  unfold fetch_bounties. induction extra as [|n IH]; [reflexivity |].
  cbn [Nat.add]. rewrite retrying_fuel_enough by lia. exact IH.
Qed.

(** A first attempt that returns ends the call: nothing is retried. *)
Lemma retrying_first_ok fuel attempt_number s v s1 t :
  fetch_attempt w cfg page per_page s = (Ok v, s1, t) ->
  retrying w cfg page per_page fuel attempt_number s = (Ok v, s1, t).
Proof. intros H. rewrite retrying_unfold. unfold try_except. now rewrite H. Qed.

(** The client never writes to the store and never notifies. *)
Lemma retrying_quiet fuel : forall attempt_number s,
  db (state_of (retrying w cfg page per_page fuel attempt_number s)) = db s
  /\ sends (trace_of (retrying w cfg page per_page fuel attempt_number s)) = 0%nat.
Proof.
  induction fuel as [|fuel IH]; intros k s; rewrite retrying_unfold;
    unfold try_except;
    destruct (fetch_attempt_shape s) as (r & t & -> & Ht);
    pose proof (only_logs_quiet t Ht) as (Hs & _);
    (destruct r as [v | e]; [unfold sends in *; simpl; auto |]);
    (destruct (negb (retry_if_exception_type e));
     [unfold raise, sends in *; simpl; rewrite app_nil_r; auto |]);
    (destruct (stop_after_attempt (max_retries cfg) k);
     [unfold raise, sends in *; simpl; rewrite app_nil_r; auto |]);
    unfold bind, log, sleep, emit, raise; simpl.
  - unfold sends in *. simpl. rewrite filter_app, length_app, Hs. simpl. auto.
  - destruct (IH (k + 1) (next s)) as (Hd & Hn).
    destruct (retrying w cfg page per_page fuel (k + 1) (next s)) as [[r' s'] t'].
    unfold state_of, trace_of, sends in *. simpl in *.
    rewrite filter_app, length_app, Hs. simpl. auto.
Qed.

End Source.

Lemma fetch_bounties_first_ok w cfg page per_page s v s1 t :
  fetch_attempt w cfg page per_page s = (Ok v, s1, t) ->
  fetch_bounties w cfg page per_page s = (Ok v, s1, t).
Proof. apply retrying_first_ok. Qed.

Lemma fetch_bounties_200 w cfg page per_page s data :
  http w (tick s) = HttpResponse 200 (Ok data) ->
  fetch_bounties w cfg page per_page s = fetch_attempt w cfg page per_page s
  /\ result_of (fetch_bounties w cfg page per_page s) = result_of (normalize data (next s)).
Proof.
  intros H. pose proof (fetch_attempt_200 w cfg page per_page s H) as E.
  destruct (normalize_returns data (next s)) as (v & t & En & _).
  rewrite En in E. unfold result_of, trace_of in E. simpl in E.
  rewrite (fetch_bounties_first_ok _ _ _ _ _ E), E, En. split; reflexivity.
Qed.

(** A retryable failure before the stop condition: log, sleep, try again. *)
Lemma retrying_again w cfg page per_page fuel attempt_number s e s1 t :
  fetch_attempt w cfg page per_page s = (Raise e, s1, t) ->
  retry_if_exception_type e = true ->
  stop_after_attempt (max_retries cfg) attempt_number = false ->
  let again := retrying w cfg page per_page fuel (attempt_number + 1) s1 in
  retrying w cfg page per_page (S fuel) attempt_number s
  = (result_of again, state_of again,
     t ++ [EvLog (LogRetrying attempt_number);
           EvSleep (wait_exponential 1 2 10 attempt_number)] ++ trace_of again).
Proof.
  intros Ha He Hstop again. rewrite retrying_unfold. unfold try_except.
  rewrite Ha, He, Hstop. simpl. unfold bind, log, sleep, emit. simpl.
  fold again. destruct again as [[r s2] t2]. reflexivity.
Qed.

(** C4. A decoded 200 body that is a sequence is returned as it is; of a
    keyed structure the keys bounties, data, results, items are probed in
    that order and the value under the first one present is returned; a
    keyed structure with none of them gives the empty sequence and one
    log entry; normalization never raises, and it is what
    [fetch_bounties] returns for a decoded 200 response. The two bodies of
    the specification normalize to the same one-listing sequence. *)
Theorem response_shape_normalization :
  probe_keys = ["bounties"; "data"; "results"; "items"]
  /\ (forall l s, normalize (JList l) s = (Ok (JList l), s, []))
  /\ (forall d pre key post v s,
        probe_keys = pre ++ key :: post ->
        Forall (fun k => dict_get d k = None) pre ->
        dict_get d key = Some v ->
        normalize (JDict d) s = (Ok v, s, []))
  /\ (forall d s,
        Forall (fun k => dict_get d k = None) probe_keys ->
        normalize (JDict d) s
        = (Ok (JList []), s, [EvLog (LogUnexpectedShape (dict_keys d))]))
  /\ (forall data s, exists v, result_of (normalize data s) = Ok v)
  /\ (forall w cfg page per_page s data,
        http w (tick s) = HttpResponse 200 (Ok data) ->
        result_of (fetch_bounties w cfg page per_page s)
        = result_of (normalize data (next s)))
  /\ (forall s,
        result_of (normalize (JList [listing_1]) s) = Ok (JList [listing_1])
        /\ result_of (normalize (JDict [("data", JList [listing_1])]) s)
           = Ok (JList [listing_1])).
Proof.
  split; [reflexivity |]. split; [reflexivity |]. split.
  { intros d pre key post v s Hk Hpre Hv. unfold normalize.
    now rewrite (@probe_first probe_keys d pre key post v Hk Hpre Hv). }
  split.
  { intros d s H. unfold normalize. now rewrite (@probe_none probe_keys d H). }
  split.
  { intros data s. destruct (normalize_returns data s) as (v & t & -> & _). now exists v. }
  split.
  { intros w cfg page per_page s data H. now apply fetch_bounties_200. }
  intros s. split; reflexivity.
Qed.

Lemma response_shape_normalization_witness :
  result_of (fetch_bounties
               (world_of (HttpResponse 200 (Ok (JDict [("data", JList [listing_1])]))))
               default_config 1 50 initial_state)
  = Ok (JList [listing_1])
  /\ normalize (JDict [("items", JInt 7); ("results", JNull)]) initial_state
     = (Ok JNull, initial_state, []).
Proof.
  destruct response_shape_normalization as (_ & _ & Hkey & _ & _ & Hfetch & _).
  split.
  - rewrite (Hfetch _ default_config 1 50 initial_state
               (JDict [("data", JList [listing_1])])); reflexivity.
  - apply (Hkey _ ["bounties"; "data"] "results" ["items"]).
    + reflexivity.
    + repeat constructor.
    + reflexivity.
Defined.



(** C10. When the decoded 200 body is a keyed structure holding one of
    the probed keys, [fetch_bounties] returns the value under the first
    such key as it is, whatever that value is: nothing checks that it is a
    sequence of listings. For the body with the string "oops" under data
    the call returns that string, which is no list. *)
Theorem wrapped_value_returned_unchecked :
  (forall w cfg page per_page s d pre key post v,
      http w (tick s) = HttpResponse 200 (Ok (JDict d)) ->
      probe_keys = pre ++ key :: post ->
      Forall (fun k => dict_get d k = None) pre ->
      dict_get d key = Some v ->
      result_of (fetch_bounties w cfg page per_page s) = Ok v)
  /\ (forall w cfg page per_page s,
        http w (tick s) = HttpResponse 200 (Ok (JDict [("data", JStr "oops")])) ->
        result_of (fetch_bounties w cfg page per_page s) = Ok (JStr "oops")
        /\ forall l, JStr "oops" <> JList l).
Proof.
  assert (Hgen : forall w cfg page per_page s d pre key post v,
      http w (tick s) = HttpResponse 200 (Ok (JDict d)) ->
      probe_keys = pre ++ key :: post ->
      Forall (fun k => dict_get d k = None) pre ->
      dict_get d key = Some v ->
      result_of (fetch_bounties w cfg page per_page s) = Ok v).
  { intros w cfg page per_page s d pre key post v H Hk Hpre Hv.
    destruct (fetch_bounties_200 w cfg page per_page s H) as [_ ->].
    unfold normalize. now rewrite (@probe_first probe_keys d pre key post v Hk Hpre Hv). }
  split; [exact Hgen |].
  intros w cfg page per_page s H. split; [| discriminate].
  apply (Hgen w cfg page per_page s [("data", JStr "oops")]
           ["bounties"] "data" ["results"; "items"]);
    try reflexivity; try assumption.
  repeat constructor.
Qed.

(** The poll cycle then iterates over the characters of the string, and
    the first one has no [get]. *)
Lemma wrapped_value_returned_unchecked_witness :
  result_of (fetch_bounties
               (world_of (HttpResponse 200 (Ok (JDict [("data", JStr "oops")]))))
               default_config 1 50 initial_state) = Ok (JStr "oops")
  /\ In (EvLog (LogPollingError AttributeError))
        (trace_of (poll_cycle
                     (world_of (HttpResponse 200 (Ok (JDict [("data", JStr "oops")]))))
                     default_config initial_state)).
Proof.
  split.
  - apply (proj2 wrapped_value_returned_unchecked
             (world_of (HttpResponse 200 (Ok (JDict [("data", JStr "oops")]))))
             default_config 1 50 initial_state eq_refl).
  - vm_compute. right. right. right. now left.
Defined.

(** ** Backoff and retry exhaustion *)

Lemma wait_closed_form k :
  wait_exponential 1 2 10 k = Z.max 2 (Z.min (2 ^ (k - 1)) 10).
Proof. unfold wait_exponential. rewrite Z.mul_1_l. reflexivity. Qed.

Lemma wait_bounds k : 2 <= wait_exponential 1 2 10 k <= 10.
Proof. rewrite wait_closed_form. lia. Qed.

Lemma pow2_step k : 2 ^ (k - 1) <= 2 ^ k /\ (1 <= k -> 2 ^ k = 2 * 2 ^ (k - 1)).
Proof.
  destruct (Z_lt_le_dec k 1) as [Hlt | Hge].
  - split; [| lia].
    rewrite (Z.pow_neg_r 2 (k - 1)) by lia. apply Z.pow_nonneg. lia.
  - replace k with (Z.succ (k - 1)) at 2 4 by lia.
    rewrite Z.pow_succ_r by lia.
    assert (0 < 2 ^ (k - 1)) by (apply Z.pow_pos_nonneg; lia). lia.
Qed.

Lemma wait_nondecreasing k :
  wait_exponential 1 2 10 k <= wait_exponential 1 2 10 (k + 1).
Proof.
  rewrite !wait_closed_form. replace (k + 1 - 1) with k by lia.
  pose proof (pow2_step k). lia.
Qed.

Lemma wait_at_most_doubles k :
  wait_exponential 1 2 10 (k + 1) <= 2 * wait_exponential 1 2 10 k.
Proof.
  rewrite !wait_closed_form. replace (k + 1 - 1) with k by lia.
  destruct (Z_lt_le_dec k 1) as [Hlt | Hge].
  - assert (2 ^ k <= 1).
    { destruct (Z.eq_dec k 0) as [-> | Hne]; [simpl; lia |].
      rewrite Z.pow_neg_r by lia. lia. }
    lia.
  - pose proof (pow2_step k) as [_ H]. specialize (H Hge). lia.
Qed.

Lemma try_except_logged (m : M unit) (g : exn -> log_entry) s :
  exists s' t, try_except m (fun e => log (g e)) s = (Ok tt, s', t).
Proof.
  unfold try_except, log, emit. destruct (m s) as [[[[] | e] s1] t1]; eauto.
Qed.

Lemma poll_cycle_returns w cfg s :
  exists s' t,
    poll_cycle w cfg s = (Ok tt, s', t ++ [EvSleep (poll_interval cfg)]).
Proof.
  unfold poll_cycle. unfold bind at 1.
  match goal with
  | |- context [try_except ?m ?h s] =>
      destruct (try_except_logged m LogPollingError s) as (s' & t & E)
  end.
  rewrite E. unfold sleep, emit. eauto.
Qed.

Section Exhaustion.
Variable w : World.
Variable cfg : Config.
Variables page per_page : Z.
Hypothesis transient : forall n, is_transient (http w n) = true.

Let request : event :=
  EvHttpGet (api_url cfg)
    (match api_key cfg with Some k => Some ("Bearer " ++ k)%string | None => None end)
    page per_page.

Lemma fetch_attempt_transient s :
  exists e t,
    fetch_attempt w cfg page per_page s = (Raise e, next s, request :: t)
    /\ retry_if_exception_type e = true
    /\ forallb is_log t = true.
Proof.
  pose proof (transient (tick s)) as H.
  unfold fetch_attempt, try_except, bind, http_get, lift, raise, log, emit, ret.
  fold request.
  destruct (http w (tick s)) as [e | status body]; simpl in H.
  - destruct e; try discriminate; simpl; eexists; eexists; repeat split; reflexivity.
  - apply Z.eqb_eq in H. subst status. simpl.
    eexists; eexists; repeat split; reflexivity.
Qed.

Lemma retrying_exhausts fuel : forall attempt_number s,
  attempt_number <= max_retries cfg ->
  max_retries cfg - attempt_number <= Z.of_nat fuel ->
  let run := retrying w cfg page per_page fuel attempt_number s in
  let left := Z.to_nat (max_retries cfg - attempt_number) in
  (exists e, result_of run = Raise (RetryError e))
  /\ filter is_http (trace_of run) = repeat request (S left)
  /\ sleeps (trace_of run)
     = map (wait_exponential 1 2 10) (attempts_from attempt_number left)
  /\ db (state_of run) = db s
  /\ tick (state_of run) = (tick s + S left)%nat.
Proof.
  induction fuel as [|fuel IH]; intros k s Hk Hfuel run left; subst run left;
    destruct (fetch_attempt_transient s) as (e & t & Ea & He & Ht);
    destruct (only_logs_quiet t Ht) as (_ & Hsl & Hhttp).
  - assert (k = max_retries cfg) by lia. subst k.
    rewrite retrying_unfold. unfold try_except. rewrite Ea, He. simpl.
    unfold stop_after_attempt. rewrite Z.geb_leb, Z.leb_refl. unfold raise.
    rewrite Z.sub_diag. simpl. rewrite app_nil_r, Hhttp.
    unfold sleeps in *. simpl. rewrite Hsl.
    repeat split; [eexists; reflexivity | lia].
  - destruct (Z.eq_dec k (max_retries cfg)) as [-> | Hne].
    + rewrite retrying_unfold. unfold try_except. rewrite Ea, He. simpl.
      unfold stop_after_attempt. rewrite Z.geb_leb, Z.leb_refl. unfold raise.
      rewrite Z.sub_diag. simpl. rewrite app_nil_r, Hhttp.
      unfold sleeps in *. simpl. rewrite Hsl.
      repeat split; [eexists; reflexivity | lia].
    + assert (Hstop : stop_after_attempt (max_retries cfg) k = false).
      { unfold stop_after_attempt. rewrite Z.geb_leb. apply Z.leb_gt. lia. }
      pose proof (@retrying_again w cfg page per_page fuel k s _ _ _ Ea He Hstop) as E.
      cbv zeta in E. rewrite E. clear E.
      destruct (IH (k + 1) (next s)) as ((e' & Hr) & Hh & Hs & Hd & Htick); [lia | lia |].
      replace (Z.to_nat (max_retries cfg - k))
        with (S (Z.to_nat (max_retries cfg - (k + 1)))) by lia.
      unfold result_of, state_of, trace_of in *. cbn [fst snd].
      repeat split.
      * eauto.
      * cbn [filter app is_http]. rewrite !filter_app. cbn [filter is_http app].
        rewrite Hhttp, Hh. reflexivity.
      * change (request :: t) with ([request] ++ t).
        rewrite !sleeps_app. fold (sleeps t). rewrite Hsl.
        unfold sleeps at 1 2. cbn [flat_map app]. fold (sleeps (snd (retrying w cfg page per_page fuel (k + 1) (next s)))).
        rewrite Hs. reflexivity.
      * rewrite Hd. reflexivity.
      * rewrite Htick. simpl. lia.
Qed.

Lemma fetch_bounties_exhausts s :
  1 <= max_retries cfg ->
  let run := fetch_bounties w cfg page per_page s in
  (exists e, result_of run = Raise (RetryError e))
  /\ List.length (filter is_http (trace_of run)) = Z.to_nat (max_retries cfg)
  /\ sleeps (trace_of run) = backoff_delays (max_retries cfg)
  /\ db (state_of run) = db s.
Proof.
  intros Hmax run. subst run. unfold fetch_bounties.
  destruct (@retrying_exhausts (Z.to_nat (max_retries cfg)) 1 s) as (Hr & Hh & Hs & Hd & _);
    [lia | lia |].
  repeat split; try assumption.
  rewrite Hh, repeat_length. lia.
Qed.

End Exhaustion.

Section ExhaustedCycle.
Variable w : World.
Variable cfg : Config.
Hypothesis transient : forall n, is_transient (http w n) = true.
Hypothesis attempts : 1 <= max_retries cfg.

(** The cycle after an exhausted fetch: the error is logged, nothing is
    processed, the loop sleeps for the poll interval. *)
Lemma poll_cycle_exhausted s :
  let fetch := fetch_bounties w cfg 1 50 s in
  exists e,
    result_of fetch = Raise (RetryError e)
    /\ poll_cycle w cfg s
       = (Ok tt, state_of fetch,
          EvLog LogFetching :: trace_of fetch
          ++ [EvLog (LogPollingError (RetryError e)); EvSleep (poll_interval cfg)]).
Proof.
  intros fetch.
  destruct (@fetch_bounties_exhausts w cfg 1 50 transient s attempts) as ((e & Hr) & _).
  fold fetch in Hr. exists e. split; [assumption |].
  unfold poll_cycle, bind, try_except, log, sleep, emit. simpl.
  fold fetch. destruct fetch as [[r s1] t1]. unfold result_of in Hr. simpl in Hr.
  subst r. simpl. rewrite <- app_assoc. reflexivity.
Qed.

Lemma poll_cycle_exhausted_requests s :
  List.length (filter is_http (trace_of (poll_cycle w cfg s)))
  = Z.to_nat (max_retries cfg).
Proof.
  destruct (poll_cycle_exhausted s) as (e & _ & ->).
  destruct (@fetch_bounties_exhausts w cfg 1 50 transient s attempts) as (_ & Hh & _).
  unfold trace_of in *. simpl. rewrite filter_app, length_app, Hh. simpl. lia.
Qed.

Hypothesis running : forall n, closed w n = false.

Lemma poll_bounties_keeps_polling cycles : forall s,
  result_of (poll_bounties w cfg cycles s) = Ok tt
  /\ List.length (filter is_http (trace_of (poll_bounties w cfg cycles s)))
     = (cycles * Z.to_nat (max_retries cfg))%nat.
Proof.
  induction cycles as [|n IH]; intros s.
  - split; reflexivity.
  - cbn [poll_bounties]. rewrite running. unfold bind.
    pose proof (poll_cycle_exhausted_requests s) as Hc.
    destruct (poll_cycle_returns w cfg s) as (s1 & t1 & E).
    rewrite E in *. destruct (IH s1) as (Hr & Hn).
    destruct (poll_bounties w cfg n s1) as [[r s2] t2].
    unfold result_of, trace_of in *. simpl in *.
    split; [assumption |].
    rewrite filter_app, length_app, Hc, Hn. reflexivity.
Qed.

End ExhaustedCycle.

(** C3, amended. When every attempt fails with a transient error (client
    error, timeout or status 429) and [max_retries] is at least one (it is
    3 in every configuration [from_env] builds), [fetch_bounties] issues
    exactly [max_retries] requests and ends with [RetryError]. The wait
    after the k-th failed attempt is [2 ** (k - 1)] seconds kept between 2
    and 10, that is 2, 2, 4, 8, 10, 10, ...: the waits start at 2, never
    decrease, never more than double, and never exceed 10. The poll cycle
    logs the error and returns, and the loop goes on: each later cycle
    issues its requests again. *)
Theorem retry_exhaustion_backoff :
  forall w cfg,
    1 <= max_retries cfg ->
    (forall n, is_transient (http w n) = true) ->
    (forall n, closed w n = false) ->
    forall s page per_page,
      let run := fetch_bounties w cfg page per_page s in
      (exists e, result_of run = Raise (RetryError e))
      /\ List.length (filter is_http (trace_of run)) = Z.to_nat (max_retries cfg)
      /\ sleeps (trace_of run) = backoff_delays (max_retries cfg)
      /\ (forall k, wait_exponential 1 2 10 k = Z.max 2 (Z.min (2 ^ (k - 1)) 10))
      /\ wait_exponential 1 2 10 1 = 2
      /\ (forall k, wait_exponential 1 2 10 k <= wait_exponential 1 2 10 (k + 1))
      /\ (forall k, wait_exponential 1 2 10 (k + 1) <= 2 * wait_exponential 1 2 10 k)
      /\ (forall k, 2 <= wait_exponential 1 2 10 k <= 10)
      /\ (exists e, In (EvLog (LogPollingError (RetryError e))) (trace_of (poll_cycle w cfg s)))
      /\ result_of (poll_cycle w cfg s) = Ok tt
      /\ sends (trace_of (poll_cycle w cfg s)) = 0%nat
      /\ (forall cycles,
            result_of (poll_bounties w cfg cycles s) = Ok tt
            /\ List.length (filter is_http (trace_of (poll_bounties w cfg cycles s)))
               = (cycles * Z.to_nat (max_retries cfg))%nat)
      /\ (forall getenv cfg', from_env getenv = Ok cfg' -> max_retries cfg' = 3).
Proof.
  intros w cfg Hmax Htr Hrun s page per_page run.
  destruct (@fetch_bounties_exhausts w cfg page per_page Htr s Hmax) as (Hr & Hh & Hs & _).
  destruct (@poll_cycle_exhausted w cfg Htr Hmax s) as (e & Hre & Ec).
  split; [exact Hr |]. split; [exact Hh |]. split; [exact Hs |].
  split; [exact wait_closed_form |]. split; [reflexivity |].
  split; [exact wait_nondecreasing |]. split; [exact wait_at_most_doubles |].
  split; [exact wait_bounds |].
  split.
  { exists e. rewrite Ec. unfold trace_of. simpl. right.
    apply in_or_app. right. now left. }
  split; [now rewrite Ec |].
  split.
  { rewrite Ec. unfold trace_of at 1. cbn [snd].
    change (EvLog LogFetching :: ?x) with ([EvLog LogFetching] ++ x).
    rewrite !sends_app.
    destruct (retrying_quiet w cfg 1 50 (Z.to_nat (max_retries cfg)) 1 s) as [_ Hq].
    unfold fetch_bounties. rewrite Hq. reflexivity. }
  split; [intros cycles; now apply (@poll_bounties_keeps_polling w cfg Htr Hmax Hrun) |].
  intros getenv cfg' H. unfold from_env in H.
  destruct (getenv "DISCORD_TOKEN") as [tok |]; [| discriminate].
  destruct (is_empty tok); [discriminate |]. injection H as <-. reflexivity.
Qed.

Lemma retry_exhaustion_backoff_witness :
  List.length (filter is_http
     (trace_of (fetch_bounties (world_of (HttpResponse 429 (Ok JNull)))
                  default_config 1 50 initial_state))) = 3%nat
  /\ sleeps (trace_of (fetch_bounties (world_of (HttpResponse 429 (Ok JNull)))
                         default_config 1 50 initial_state)) = [2; 2].
Proof.
  pose proof (retry_exhaustion_backoff (world_of (HttpResponse 429 (Ok JNull)))
                default_config ltac:(simpl; lia) (fun _ => eq_refl) (fun _ => eq_refl)
                initial_state 1 50) as (_ & Hh & Hs & _).
  split; [exact Hh | exact Hs].
Defined.

(** With the default three attempts the two waits are 2 and 2 seconds:
    the second is not the double of the first. *)
Lemma backoff_does_not_double :
  let delays :=
    sleeps (trace_of (fetch_bounties (world_of (HttpRaises TimeoutError))
                        default_config 1 50 initial_state)) in
  delays = [2; 2] /\ nth 1 delays 0 <> 2 * nth 0 delays 0.
Proof. vm_compute. split; [reflexivity | discriminate]. Qed.

(** ** What a listing leaves behind *)

Lemma fanout_no_listing_mark w bounty location guilds : forall s,
  filter is_listing_mark (trace_of (for_each guilds (notify_guild w bounty location) s)) = [].
Proof.
  induction guilds as [|[guild_id channel_id] rest IH]; intros s; [reflexivity |].
  rewrite for_each_cons.
  assert (H1 : forall s', filter is_listing_mark
             (trace_of (notify_guild w bounty location (guild_id, channel_id) s')) = []).
  { intros s'.
    unfold notify_guild, try_except, bind, get_subscriptions, store_call, lift,
      send_bounty_notification, ret, log, emit.
    destruct (store_fault w (tick s') (OpGetSubscriptions guild_id)); simpl; [reflexivity |].
    destruct (any_match location _) as [[|] | e]; simpl; try reflexivity.
    destruct (sink w (S (tick s'))); reflexivity. }
  specialize (H1 s).
  destruct (notify_guild_returns w bounty location guild_id channel_id s) as (Hr & _).
  destruct (notify_guild w bounty location (guild_id, channel_id) s) as [[[[] | e] s1] t1];
    [| discriminate].
  unfold trace_of in *. simpl in *. rewrite filter_app, H1, IH. reflexivity.
Qed.

Lemma process_bounty_not_a_dict w bounty s :
  (forall d, bounty <> JDict d) ->
  process_bounty w bounty s = (Raise AttributeError, s, []).
Proof.
  intros H. destruct bounty; try reflexivity. now destruct (H d).
Qed.

Section ListingFacts.
Variable w : World.

(** Every case of [process_bounty] on a dict at once. *)
Lemma process_bounty_cases d s (P : result unit * state * list event -> Prop) :
  let bounty_id := listing_id w d in
  let marked := Database.mark_bounty_processed (db s) (clock w (S (tick s))) bounty_id in
  let s3 := {| db := marked; tick := S (S (S (tick s))) |} in
  let fanout := for_each (Database.get_all_guilds marked)
                  (notify_guild w (JDict d) (listing_location d)) s3 in
  (is_empty bounty_id = true -> P (Ok tt, s, [EvLog LogMissingId])) ->
  (forall e, is_empty bounty_id = false ->
     P (Raise e, next s, [EvStore (OpIsProcessed bounty_id)])) ->
  (is_empty bounty_id = false ->
   Database.is_bounty_processed (db s) bounty_id = true ->
   P (Ok tt, next s, [EvStore (OpIsProcessed bounty_id)])) ->
  (forall e, is_empty bounty_id = false ->
     Database.is_bounty_processed (db s) bounty_id = false ->
     P (Raise e, next (next s),
        [EvStore (OpIsProcessed bounty_id); EvStore (OpMarkProcessed bounty_id)])) ->
  (forall e, is_empty bounty_id = false ->
     Database.is_bounty_processed (db s) bounty_id = false ->
     P (Raise e, s3,
        [EvStore (OpIsProcessed bounty_id); EvStore (OpMarkProcessed bounty_id);
         EvStore OpGetAllGuilds])) ->
  (is_empty bounty_id = false ->
   Database.is_bounty_processed (db s) bounty_id = false ->
   P (result_of fanout, state_of fanout,
      [EvStore (OpIsProcessed bounty_id); EvStore (OpMarkProcessed bounty_id);
       EvStore OpGetAllGuilds] ++ trace_of fanout)) ->
  P (process_bounty w (JDict d) s).
Proof.
  intros bounty_id marked s3 fanout H1 H2 H3 H4 H5 H6.
  destruct (is_empty bounty_id) eqn:Eid.
  { rewrite process_bounty_missing_id by assumption. auto. }
  destruct (store_fault w (tick s) (OpIsProcessed bounty_id)) as [e |] eqn:Ef1.
  { rewrite (process_bounty_lookup_fails w d s Eid Ef1). auto. }
  destruct (Database.is_bounty_processed (db s) bounty_id) eqn:Ep.
  { rewrite (process_bounty_seen w d s Eid Ef1 Ep). auto. }
  destruct (store_fault w (S (tick s)) (OpMarkProcessed bounty_id)) as [e |] eqn:Ef2.
  { rewrite (process_bounty_mark_fails w d s Eid Ef1 Ep Ef2). auto. }
  rewrite (process_bounty_new w d s Eid Ef1 Ep Ef2).
  destruct (store_fault w (S (S (tick s))) OpGetAllGuilds);
    [apply H5 | apply H6]; reflexivity.
Qed.

Lemma process_bounty_persists bounty s bounty_id :
  Database.is_bounty_processed (db s) bounty_id = true ->
  Database.is_bounty_processed (db (state_of (process_bounty w bounty s))) bounty_id = true.
Proof.
  intros H.
  assert (Hd : (exists d, bounty = JDict d) \/ forall d, bounty <> JDict d).
  { destruct bounty; try (right; discriminate). left. eauto. }
  destruct Hd as [[d ->] | Hd]; [| now rewrite process_bounty_not_a_dict].
  apply process_bounty_cases; intros; unfold state_of; cbn [fst snd next db];
    try assumption; try (now apply mark_keeps_processed).
  destruct (fanout_returns w (JDict d) (listing_location d)
              (Database.get_all_guilds
                 (Database.mark_bounty_processed (db s) (clock w (S (tick s)))
                    (listing_id w d)))
              {| db := Database.mark_bounty_processed (db s) (clock w (S (tick s)))
                         (listing_id w d);
                 tick := S (S (S (tick s))) |}) as (_ & Hdb & _).
  unfold state_of in Hdb. rewrite Hdb. now apply mark_keeps_processed.
Qed.

(** A listing whose id is in the processed set is never sent. *)
Lemma process_bounty_processed_silent d s :
  Database.is_bounty_processed (db s) (listing_id w d) = true ->
  sends (trace_of (process_bounty w (JDict d) s)) = 0%nat.
Proof.
  intros H. apply process_bounty_cases; intros; try reflexivity; congruence.
Qed.


Lemma batch_processed_silent listings : forall s,
  (forall d, In (JDict d) listings ->
     Database.is_bounty_processed (db s) (listing_id w d) = true) ->
  sends (trace_of (for_each listings (process_bounty w) s)) = 0%nat.
Proof.
  induction listings as [|b rest IH]; intros s H; [reflexivity |].
  rewrite for_each_cons.
  assert (Hb : sends (trace_of (process_bounty w b s)) = 0%nat).
  { assert (Hd : (exists d, b = JDict d) \/ forall d, b <> JDict d).
    { destruct b; try (right; discriminate). left. eauto. }
    destruct Hd as [[d ->] | Hd].
    - apply process_bounty_processed_silent. apply H. now left.
    - now rewrite process_bounty_not_a_dict. }
  assert (Hrest : forall d, In (JDict d) rest ->
            Database.is_bounty_processed
              (db (state_of (process_bounty w b s))) (listing_id w d) = true).
  { intros d Hin. apply process_bounty_persists. apply H. now right. }
  destruct (process_bounty w b s) as [[[[] | e] s1] t1];
    unfold state_of, trace_of in *; cbn [fst snd] in *; [| assumption].
  rewrite sends_app, Hb, (IH s1 Hrest). reflexivity.
Qed.

End ListingFacts.

(** ** One poll cycle *)

Lemma poll_cycle_run w cfg s :
  let fetch := fetch_bounties w cfg 1 50 s in
  poll_cycle w cfg s
  = match result_of fetch with
    | Raise e =>
        (Ok tt, state_of fetch,
         EvLog LogFetching :: trace_of fetch
         ++ [EvLog (LogPollingError e); EvSleep (poll_interval cfg)])
    | Ok bounties =>
        match py_len bounties, py_iter bounties with
        | Ok n, Ok items =>
            let batch := for_each items (process_bounty w) (state_of fetch) in
            (Ok tt, state_of batch,
             EvLog LogFetching :: trace_of fetch
             ++ EvLog (LogRetrieved n) :: trace_of batch
             ++ match result_of batch with
                | Ok _ => []
                | Raise e => [EvLog (LogPollingError e)]
                end
             ++ [EvSleep (poll_interval cfg)])
        | Ok n, Raise e =>
            (Ok tt, state_of fetch,
             EvLog LogFetching :: trace_of fetch
             ++ [EvLog (LogRetrieved n); EvLog (LogPollingError e);
                 EvSleep (poll_interval cfg)])
        | Raise e, _ =>
            (Ok tt, state_of fetch,
             EvLog LogFetching :: trace_of fetch
             ++ [EvLog (LogPollingError e); EvSleep (poll_interval cfg)])
        end
    end.
Proof.
  intros fetch. unfold poll_cycle, bind, try_except, lift, log, sleep, emit.
  fold fetch. destruct fetch as [[[bounties | e] s1] t1];
    unfold result_of, state_of, trace_of; cbn [fst snd].
  - destruct (py_len bounties) as [n | e];
      [| simpl; repeat rewrite <- app_assoc; reflexivity].
    destruct (py_iter bounties) as [items | e];
      [| simpl; repeat rewrite <- app_assoc; reflexivity].
    destruct (for_each items (process_bounty w) s1) as [[[[] | e] s2] t2]; simpl;
      repeat rewrite <- app_assoc; simpl; repeat rewrite <- app_assoc; reflexivity.
  - simpl. repeat rewrite <- app_assoc. reflexivity.
Qed.

Lemma fetch_bounties_quiet w cfg page per_page s :
  db (state_of (fetch_bounties w cfg page per_page s)) = db s
  /\ sends (trace_of (fetch_bounties w cfg page per_page s)) = 0%nat.
Proof. apply retrying_quiet. Qed.


(** A cycle whose listings are all in the processed set sends nothing. *)
Lemma poll_cycle_no_resend w cfg s listings :
  result_of (fetch_bounties w cfg 1 50 s) = Ok (JList listings) ->
  (forall d, In (JDict d) listings ->
     Database.is_bounty_processed (db s) (listing_id w d) = true) ->
  sends (trace_of (poll_cycle w cfg s)) = 0%nat.
Proof.
  intros Hf Hall. rewrite poll_cycle_run. cbv zeta. rewrite Hf.
  destruct (fetch_bounties_quiet w cfg 1 50 s) as [Hdb Hq].
  unfold py_len, py_iter, trace_of at 1. cbn [snd].
  change (EvLog LogFetching :: ?x) with ([EvLog LogFetching] ++ x).
  change (EvLog (LogRetrieved (Datatypes.length listings)) :: ?x)
    with ([EvLog (LogRetrieved (Datatypes.length listings))] ++ x).
  rewrite !sends_app, Hq.
  rewrite batch_processed_silent by (intros d Hd; rewrite Hdb; now apply Hall).
  destruct (result_of (for_each _ _ _)); reflexivity.
Qed.

(** ** The claims on the poll loop *)



Section TenantFaults.
Variable w : World.
Hypothesis listing_calls_succeed :
  forall n op, tenant_op op = false -> store_fault w n op = None.

Lemma process_bounty_contained d s :
  result_of (process_bounty w (JDict d) s) = Ok tt
  /\ filter is_listing_mark (trace_of (process_bounty w (JDict d) s))
     = listing_mark w (JDict d).
Proof.
  unfold listing_mark.
  destruct (is_empty (listing_id w d)) eqn:Eid.
  { rewrite process_bounty_missing_id by assumption. split; reflexivity. }
  pose proof (listing_calls_succeed (tick s) (OpIsProcessed (listing_id w d)) eq_refl) as F1.
  pose proof (listing_calls_succeed (S (tick s)) (OpMarkProcessed (listing_id w d)) eq_refl)
    as F2.
  pose proof (listing_calls_succeed (S (S (tick s))) OpGetAllGuilds eq_refl) as F3.
  destruct (Database.is_bounty_processed (db s) (listing_id w d)) eqn:Ep.
  { rewrite (process_bounty_seen w d s Eid F1 Ep). split; reflexivity. }
  rewrite (process_bounty_new w d s Eid F1 Ep F2), F3. cbv zeta.
  match goal with
  | |- context [for_each ?gs ?body ?s3] =>
      destruct (fanout_returns w (JDict d) (listing_location d) gs s3) as (Hr & _);
      pose proof (fanout_no_listing_mark w (JDict d) (listing_location d) gs s3) as Hm
  end.
  rewrite result_of_run, trace_of_run.
  split; [assumption |].
  rewrite filter_app, Hm. reflexivity.
Qed.

Lemma batch_contained listings : forall s,
  (forall b, In b listings -> exists d, b = JDict d) ->
  result_of (for_each listings (process_bounty w) s) = Ok tt
  /\ filter is_listing_mark (trace_of (for_each listings (process_bounty w) s))
     = flat_map (listing_mark w) listings.
Proof.
  induction listings as [|b rest IH]; intros s Hall; [split; reflexivity |].
  destruct (Hall b (or_introl eq_refl)) as [d ->].
  rewrite for_each_cons.
  destruct (process_bounty_contained d s) as (Hr & Hm).
  destruct (process_bounty w (JDict d) s) as [[[[] | e] s1] t1]; [| discriminate].
  unfold result_of, trace_of in *. cbn [fst snd] in *.
  destruct (IH s1 (fun b' Hb' => Hall b' (or_intror Hb'))) as (Hr' & Hm').
  unfold result_of, trace_of in *.
  split; [assumption |].
  cbn [flat_map]. rewrite filter_app, Hm, Hm'. reflexivity.
Qed.

End TenantFaults.

(** C6. A failed delivery is caught and logged inside
    [send_bounty_notification], which always returns; a failed read of a
    tenant's subscriptions is caught and logged by the loop body, which
    always returns; so the loop over the tenants reads the subscriptions of
    every tenant, in order, whatever failed before. When no other store
    call fails, every listing of the batch is handled, in order. *)
Theorem tenant_failure_is_contained :
  (forall w channel_id bounty location s,
      result_of (send_bounty_notification w channel_id bounty location s) = Ok tt
      /\ (forall e, sink w (tick s) = SinkError e ->
            trace_of (send_bounty_notification w channel_id bounty location s)
            = [EvNotify channel_id bounty location; EvLog (LogSendError e)])
      /\ (sink w (tick s) = SinkForbidden ->
            trace_of (send_bounty_notification w channel_id bounty location s)
            = [EvNotify channel_id bounty location; EvLog (LogForbidden channel_id)]))
  /\ (forall w bounty location guild_id channel_id s,
        result_of (notify_guild w bounty location (guild_id, channel_id) s) = Ok tt
        /\ (forall e, store_fault w (tick s) (OpGetSubscriptions guild_id) = Some e ->
              notify_guild w bounty location (guild_id, channel_id) s
              = (Ok tt, next s,
                 [EvStore (OpGetSubscriptions guild_id);
                  EvLog (LogGuildError guild_id e)])))
  /\ (forall w bounty location guilds s,
        result_of (for_each guilds (notify_guild w bounty location) s) = Ok tt
        /\ filter is_subscription_read
             (trace_of (for_each guilds (notify_guild w bounty location) s))
           = map (fun g => EvStore (OpGetSubscriptions (fst g))) guilds)
  /\ (forall w listings s,
        (forall b, In b listings -> exists d, b = JDict d) ->
        (forall n op, tenant_op op = false -> store_fault w n op = None) ->
        result_of (for_each listings (process_bounty w) s) = Ok tt
        /\ filter is_listing_mark (trace_of (for_each listings (process_bounty w) s))
           = flat_map (listing_mark w) listings).
Proof.
  split.
  { intros w channel_id bounty location s. unfold send_bounty_notification, trace_of.
    cbn [fst snd]. repeat split.
    - intros e ->. reflexivity.
    - intros ->. reflexivity. }
  split.
  { intros w bounty location guild_id channel_id s. split.
    - apply notify_guild_returns.
    - intros e. apply notify_guild_read_fails. }
  split.
  { intros w bounty location guilds s.
    destruct (fanout_returns w bounty location guilds s) as (H1 & _ & H2). now split. }
  intros w listings s Hall Hfaults. now apply batch_contained.
Qed.

(** Reading the subscriptions of the first tenant fails for both
    listings; the second tenant is still served, twice. *)
Lemma tenant_failure_is_contained_witness :
  filter is_listing_mark
    (trace_of (for_each [listing_remote; JDict [("id", JInt 2)]]
                 (process_bounty world_failing_reads) two_tenants))
  = [EvStore (OpIsProcessed "1"); EvStore (OpIsProcessed "2")]
  /\ sends (trace_of (for_each [listing_remote; JDict [("id", JInt 2)]]
                        (process_bounty world_failing_reads) two_tenants)) = 2%nat.
Proof.
  split; [| reflexivity].
  apply (proj2 (proj2 (proj2 tenant_failure_is_contained)) world_failing_reads
           [listing_remote; JDict [("id", JInt 2)]] two_tenants).
  - intros b [<- | [<- | []]]; eexists; reflexivity.
  - intros n [] H; try reflexivity. discriminate.
Defined.

(** C8. [mark_bounty_processed] is idempotent: after one call the id is
    in the processed set, any further calls leave the store exactly as the
    first one did, and (the ids of the table being distinct, as its
    primary key makes them) the id occurs in the set exactly once. A
    duplicate insert raises nothing: the call returns whenever the store
    itself does not fail. A later poll cycle whose listings all carry that
    id sends nothing. *)
Theorem mark_bounty_processed_idempotent :
  forall d now bounty_id,
    let marked := Database.mark_bounty_processed d now bounty_id in
    Database.is_bounty_processed marked bounty_id = true
    /\ (forall now', Database.mark_bounty_processed marked now' bounty_id = marked)
    /\ (forall nows,
          fold_left (fun acc t => Database.mark_bounty_processed acc t bounty_id) nows marked
          = marked)
    /\ (NoDup (Database.processed_ids d) ->
        NoDup (Database.processed_ids marked)
        /\ forall nows,
             count_occ string_dec
               (Database.processed_ids
                  (fold_left (fun acc t => Database.mark_bounty_processed acc t bounty_id)
                     nows marked)) bounty_id = 1%nat)
    /\ (forall w s,
          store_fault w (tick s) (OpMarkProcessed bounty_id) = None ->
          mark_bounty_processed w bounty_id s
          = (Ok tt,
             {| db := Database.mark_bounty_processed (db s) (clock w (tick s)) bounty_id;
                tick := S (tick s) |},
             [EvStore (OpMarkProcessed bounty_id)]))
    /\ (forall w cfg s listings,
          db s = marked ->
          result_of (fetch_bounties w cfg 1 50 s) = Ok (JList listings) ->
          (forall d', In (JDict d') listings -> listing_id w d' = bounty_id) ->
          sends (trace_of (poll_cycle w cfg s)) = 0%nat).
Proof.
  intros d now bounty_id marked. subst marked.
  split; [apply mark_makes_processed |].
  split; [intros now'; apply mark_twice |].
  split; [intros nows; apply mark_many |].
  split.
  { intros Hnd. split; [now apply mark_keeps_unique |].
    intros nows. rewrite mark_many. now apply mark_counts_once. }
  split.
  { intros w s H. unfold mark_bounty_processed, store_call. now rewrite H. }
  intros w cfg s listings Hdb Hf Hall.
  apply (poll_cycle_no_resend w cfg s Hf).
  intros d' Hd'. rewrite (Hall d' Hd'), Hdb. apply mark_makes_processed.
Qed.

Lemma mark_bounty_processed_idempotent_witness :
  count_occ string_dec
    (Database.processed_ids
       (Database.mark_bounty_processed
          (Database.mark_bounty_processed store_two_tenants 5 "1") 9 "1")) "1" = 1%nat
  /\ sends (trace_of (poll_cycle world_failing_sink default_config
                        {| db := Database.mark_bounty_processed store_two_tenants 5 "1";
                           tick := 7 |})) = 0%nat.
Proof.
  pose proof (mark_bounty_processed_idempotent store_two_tenants 5 "1")
    as (_ & _ & _ & Hcount & _ & Hcycle).
  split.
  - apply (proj2 (Hcount ltac:(constructor)) [9]).
  - apply (Hcycle world_failing_sink default_config _ [listing_remote]).
    + reflexivity.
    + reflexivity.
    + intros d' [Hd' | []]. injection Hd' as <-. reflexivity.
Defined.

(** ** The empty keyword *)

Lemma any_match_empty_keyword loc keywords :
  In "" keywords -> any_match (JStr loc) keywords = Ok true.
Proof.
  induction keywords as [|k rest IH]; intros Hin; [destruct Hin |].
  cbn [any_match]. destruct Hin as [-> | Hin].
  - now rewrite matches_empty_keyword.
  - destruct (matches_location loc k); [reflexivity | now apply IH].
Qed.

Lemma fanout_delivers w bounty location guild_id channel_id guilds : forall s,
  (forall n g, store_fault w n (OpGetSubscriptions g) = None) ->
  In (guild_id, channel_id) guilds ->
  any_match location (Database.get_subscriptions (db s) guild_id) = Ok true ->
  In (EvNotify channel_id bounty location)
     (trace_of (for_each guilds (notify_guild w bounty location) s)).
Proof.
  induction guilds as [|[g c] rest IH]; intros s Hok Hin Hm; [destruct Hin |].
  rewrite for_each_cons.
  destruct (notify_guild_returns w bounty location g c s) as (Hr & Hdb & _).
  destruct Hin as [Heq | Hin].
  - injection Heq as -> ->.
    rewrite (notify_guild_matched w bounty location guild_id channel_id s (Hok _ _) Hm).
    unfold trace_of. cbn [fst snd]. right. apply in_or_app. left. now left.
  - destruct (notify_guild w bounty location (g, c) s) as [[[[] | e] s1] t1]; [| discriminate].
    unfold state_of, trace_of in *. cbn [fst snd] in *.
    apply in_or_app. right. apply IH; try assumption. now rewrite Hdb.
Qed.

(** C9. The empty keyword matches every location. So, for a listing that
    is new and whose location is a string (or absent, which reads as
    "Remote"), a tenant that has a channel and holds a subscription to the
    empty keyword is notified, whatever the location, as long as the store
    answers. *)
Theorem empty_keyword_matches_everything :
  (forall location, matches_location location "" = true)
  /\ (forall w d s guild_id channel_id loc,
        is_empty (listing_id w d) = false ->
        Database.is_bounty_processed (db s) (listing_id w d) = false ->
        listing_location d = JStr loc ->
        (forall n op, store_fault w n op = None) ->
        In (guild_id, channel_id) (Database.get_all_guilds (db s)) ->
        In "" (Database.get_subscriptions (db s) guild_id) ->
        In (EvNotify channel_id (JDict d) (JStr loc))
           (trace_of (process_bounty w (JDict d) s))).
Proof.
  split; [exact matches_empty_keyword |].
  intros w d s guild_id channel_id loc Hid Hnew Hloc Hok Hguild Hsub.
  rewrite (process_bounty_new w d s Hid (Hok _ _) Hnew (Hok _ _)), Hok. cbv zeta.
  rewrite trace_of_run. apply in_or_app. right.
  destruct (mark_keeps_tables (db s) (clock w (S (tick s))) (listing_id w d)) as [Hg Hs].
  rewrite Hloc. apply fanout_delivers with (guild_id := guild_id).
  - intros n g. apply Hok.
  - unfold Database.get_all_guilds in *. now rewrite Hg.
  - apply any_match_empty_keyword. cbn [db].
    unfold Database.get_subscriptions in *. now rewrite Hs.
Qed.

Lemma empty_keyword_matches_everything_witness :
  In (EvNotify "200" listing_remote (JStr "Remote"))
     (trace_of (process_bounty (world_of (HttpRaises TimeoutError)) listing_remote two_tenants)).
Proof.
  apply (proj2 empty_keyword_matches_everything (world_of (HttpRaises TimeoutError))
           [("id", JStr "1"); ("location", JStr "Remote")] two_tenants "g2" "200" "Remote").
  - reflexivity.
  - reflexivity.
  - reflexivity.
  - reflexivity.
  - simpl. right. now left.
  - simpl. right. now left.
Defined.

(** * Further properties of the code *)

(** ** The store: channels *)

Lemma assoc_app_last rows guild_id channel_id key :
  Database.assoc (rows ++ [(guild_id, channel_id)]) key
  = match Database.assoc rows key with
    | Some v => Some v
    | None => if String.eqb guild_id key then Some channel_id else None
    end.
Proof.
  induction rows as [|[k v] rows IH]; simpl; [reflexivity |].
  destruct (String.eqb k key); [reflexivity | exact IH].
Qed.

Lemma assoc_filter_other rows guild_id key :
  Database.assoc (filter (fun r => negb (String.eqb (fst r) guild_id)) rows) key
  = if String.eqb guild_id key then None else Database.assoc rows key.
Proof.
  induction rows as [|[k v] rows IH]; simpl.
  - now destruct (String.eqb guild_id key).
  - destruct (String.eqb k guild_id) eqn:Ek; simpl.
    + apply String.eqb_eq in Ek. subst k. rewrite IH.
      now destruct (String.eqb guild_id key).
    + rewrite IH. destruct (String.eqb k key) eqn:Ekk; [| reflexivity].
      apply String.eqb_eq in Ekk. subst k.
      rewrite String.eqb_sym in Ek. now rewrite Ek.
Qed.

(** X1. [set_channel] then [get_channel]: the guild reads back the channel
    just set, whatever it had before; every other guild reads what it read
    before; the guild has exactly one row in [get_all_guilds]; the other
    tables are untouched. *)
Theorem set_channel_get_channel :
  forall d guild_id channel_id,
    let d' := Database.set_channel d guild_id channel_id in
    Database.get_channel d' guild_id = Some channel_id
    /\ (forall other, other <> guild_id ->
          Database.get_channel d' other = Database.get_channel d other)
    /\ filter (fun r => String.eqb (fst r) guild_id) (Database.get_all_guilds d')
       = [(guild_id, channel_id)]
    /\ Database.subscriptions d' = Database.subscriptions d
    /\ Database.processed_bounties d' = Database.processed_bounties d.
Proof.
  intros d guild_id channel_id d'. subst d'.
  unfold Database.get_channel, Database.get_all_guilds, Database.set_channel. simpl.
  repeat split.
  - rewrite assoc_app_last, assoc_filter_other, !String.eqb_refl. reflexivity.
  - intros other Hne. rewrite assoc_app_last, assoc_filter_other.
    destruct (String.eqb guild_id other) eqn:E.
    + apply String.eqb_eq in E. congruence.
    + now destruct (Database.assoc (Database.guild_settings d) other).
  - rewrite filter_app. simpl. rewrite String.eqb_refl.
    replace (filter _ (filter _ (Database.guild_settings d))) with (@nil (string * string));
      [reflexivity |].
    symmetry. induction (Database.guild_settings d) as [|[k v] rows IH]; [reflexivity |].
    simpl. destruct (String.eqb k guild_id) eqn:E; simpl; [exact IH |].
    now rewrite E.
Qed.

(** ** The store: subscriptions *)

Lemma remove_subscription_keywords d guild_id keyword other :
  Database.get_subscriptions (Database.remove_subscription d guild_id keyword) other
  = if String.eqb other guild_id
    then filter (fun k => negb (String.eqb k keyword)) (Database.get_subscriptions d other)
    else Database.get_subscriptions d other.
Proof.
  unfold Database.get_subscriptions, Database.remove_subscription, Database.same_pair. simpl.
  induction (Database.subscriptions d) as [|r rows IH]; simpl.
  - now destruct (String.eqb other guild_id).
  - destruct (String.eqb (Database.sub_guild r) guild_id) eqn:Eg;
      destruct (String.eqb (Database.sub_keyword r) keyword) eqn:Ek;
      destruct (String.eqb (Database.sub_guild r) other) eqn:Eo;
      destruct (String.eqb other guild_id) eqn:Eog;
      simpl; rewrite ?Eo, ?Ek; simpl; rewrite ?IH, ?Eog; try reflexivity;
      apply String.eqb_eq in Eo; subst other;
      rewrite Eg in Eog; discriminate.
Qed.

Lemma filter_same_pair_absent rows guild_id keyword :
  ~ In (guild_id, keyword)
      (map (fun r => (Database.sub_guild r, Database.sub_keyword r)) rows) ->
  filter (fun r => negb (Database.same_pair guild_id keyword r)) rows = rows.
Proof.
  induction rows as [|r rows IH]; intros Hnot; [reflexivity |]. simpl in *.
  destruct (Database.same_pair guild_id keyword r) eqn:E.
  - exfalso. apply Hnot. left. unfold Database.same_pair in E.
    apply andb_true_iff in E as [E1 E2]. apply String.eqb_eq in E1, E2. now subst.
  - simpl. f_equal. apply IH. intros H. apply Hnot. now right.
Qed.

(** X2. [remove_subscription] takes the keyword out of the guild's list
    and nothing else: the guild is left with its other keywords in their
    order, every other guild with all of its keywords; removing a pair
    that is not there changes nothing, so a second removal does nothing
    (an idempotent delete). *)
Theorem remove_subscription_removes_only_the_pair :
  forall d guild_id keyword,
    let d' := Database.remove_subscription d guild_id keyword in
    Database.get_subscriptions d' guild_id
    = filter (fun k => negb (String.eqb k keyword)) (Database.get_subscriptions d guild_id)
    /\ ~ In keyword (Database.get_subscriptions d' guild_id)
    /\ (forall other, other <> guild_id ->
          Database.get_subscriptions d' other = Database.get_subscriptions d other)
    /\ (~ In (guild_id, keyword) (Database.sub_pairs d) -> d' = d)
    /\ Database.remove_subscription d' guild_id keyword = d'
    /\ Database.guild_settings d' = Database.guild_settings d
    /\ Database.processed_bounties d' = Database.processed_bounties d.
Proof.
  intros d guild_id keyword d'. subst d'.
  assert (Hk : Database.get_subscriptions
                 (Database.remove_subscription d guild_id keyword) guild_id
               = filter (fun k => negb (String.eqb k keyword))
                   (Database.get_subscriptions d guild_id)).
  { rewrite remove_subscription_keywords. now rewrite String.eqb_refl. }
  assert (Hno : forall d0, ~ In (guild_id, keyword) (Database.sub_pairs d0) ->
                Database.remove_subscription d0 guild_id keyword = d0).
  { intros d0 Hnot. unfold Database.remove_subscription.
    rewrite filter_same_pair_absent by exact Hnot. now destruct d0. }
  split; [exact Hk |]. split.
  { rewrite Hk. intros Hin. apply filter_In in Hin as [_ H].
    now rewrite String.eqb_refl in H. }
  split.
  { intros other Hne. rewrite remove_subscription_keywords.
    destruct (String.eqb other guild_id) eqn:E; [| reflexivity].
    apply String.eqb_eq in E. contradiction. }
  split; [apply Hno |]. split; [| split; reflexivity].
  apply Hno. unfold Database.sub_pairs, Database.remove_subscription. simpl.
  intros Hin. apply in_map_iff in Hin as [r [Hr Hin]].
  apply filter_In in Hin as [_ Hneg]. injection Hr as Hg Hkw.
  unfold Database.same_pair in Hneg. rewrite Hg, Hkw, !String.eqb_refl in Hneg.
  discriminate.
Qed.

Lemma remove_subscription_removes_only_the_pair_witness :
  Database.remove_subscription store_two_tenants "g1" "Paris" = store_two_tenants.
Proof.
  apply (proj1 (proj2 (proj2 (proj2
           (remove_subscription_removes_only_the_pair store_two_tenants "g1" "Paris"))))).
  simpl. intros [H | [H | [H | []]]]; discriminate.
Defined.

(** X3. Subscribing to a new pair and unsubscribing again gives back the
    rows the table had, and the keyword list every guild had; only the
    AUTOINCREMENT counter has moved on, so the id is not handed out
    again. *)
Theorem subscribe_unsubscribe_round_trip :
  forall d guild_id keyword,
    ~ In (guild_id, keyword) (Database.sub_pairs d) ->
    let d1 := snd (Database.add_subscription d guild_id keyword) in
    let d2 := Database.remove_subscription d1 guild_id keyword in
    Database.subscriptions d2 = Database.subscriptions d
    /\ (forall other, Database.get_subscriptions d2 other = Database.get_subscriptions d other)
    /\ Database.sub_seq d2 = Database.sub_seq d + 1
    /\ In keyword (Database.get_subscriptions d1 guild_id).
Proof.
  intros d guild_id keyword Hnew d1 d2. subst d1 d2.
  unfold Database.add_subscription, Database.insert_subscription.
  destruct (existsb _ _) eqn:E.
  { apply existsb_same_pair in E. contradiction. }
  assert (Hrows : Database.subscriptions
            (Database.remove_subscription
               (snd (Ok true,
                  {| Database.guild_settings := Database.guild_settings d;
                     Database.subscriptions := Database.subscriptions d ++
                       [{| Database.sub_id := Database.sub_seq d + 1;
                           Database.sub_guild := guild_id;
                           Database.sub_keyword := keyword |}];
                     Database.sub_seq := Database.sub_seq d + 1;
                     Database.processed_bounties := Database.processed_bounties d |}))
               guild_id keyword) = Database.subscriptions d).
  { simpl. rewrite filter_app. simpl. unfold Database.same_pair at 2. simpl.
    rewrite !String.eqb_refl. simpl. rewrite app_nil_r.
    now apply filter_same_pair_absent. }
  split; [exact Hrows |]. split.
  { intros other. unfold Database.get_subscriptions. now rewrite Hrows. }
  split; [reflexivity |].
  unfold Database.get_subscriptions. simpl. rewrite filter_app, map_app. simpl.
  rewrite String.eqb_refl. apply in_or_app. right. now left.
Qed.

Lemma subscribe_unsubscribe_round_trip_witness :
  Database.subscriptions
    (Database.remove_subscription
       (snd (Database.add_subscription store_two_tenants "g1" "Paris")) "g1" "Paris")
  = Database.subscriptions store_two_tenants.
Proof.
  apply (subscribe_unsubscribe_round_trip store_two_tenants "g1" "Paris").
  simpl. intros [H | [H | [H | []]]]; discriminate.
Defined.

(** ** The store: invariants *)

Lemma NoDup_map_filter {A B} (f : A -> B) (p : A -> bool) l :
  NoDup (map f l) -> NoDup (map f (filter p l)).
Proof.
  induction l as [|a l IH]; simpl; intros H; [constructor |].
  inversion H as [|? ? Hnot Hnd]; subst.
  destruct (p a); simpl; [| now apply IH].
  constructor; [| now apply IH].
  intros Hin. apply Hnot. apply in_map_iff in Hin as [x [Hx Hin]].
  apply filter_In in Hin as [Hin _]. apply in_map_iff. now exists x.
Qed.

Lemma store_wf_fresh : store_wf Database.create_tables.
Proof. unfold store_wf. simpl. repeat split; constructor. Qed.

Lemma set_channel_keeps_wf d guild_id channel_id :
  store_wf d -> store_wf (Database.set_channel d guild_id channel_id).
Proof.
  intros (H1 & H2 & H3 & H4 & H5). unfold store_wf, Database.set_channel,
    Database.processed_ids, Database.sub_pairs in *. simpl.
  repeat split; try assumption.
  rewrite map_app. simpl. apply NoDup_app.
  - now apply NoDup_map_filter.
  - repeat constructor. intros [].
  - intros x Hx [<- | []]. apply in_map_iff in Hx as [[k v] [Hk Hin]].
    apply filter_In in Hin as [_ Hneg]. simpl in *. subst k.
    now rewrite String.eqb_refl in Hneg.
Qed.

Lemma add_subscription_keeps_wf d guild_id keyword :
  store_wf d -> store_wf (snd (Database.add_subscription d guild_id keyword)).
Proof.
  intros (H1 & H2 & H3 & H4 & H5).
  unfold Database.add_subscription, Database.insert_subscription.
  destruct (existsb _ _) eqn:E; [simpl; repeat split; assumption |].
  assert (Hnew : ~ In (guild_id, keyword) (Database.sub_pairs d)).
  { intros Hin. apply existsb_same_pair in Hin. unfold Database.sub_pairs in *. congruence. }
  unfold store_wf, Database.processed_ids, Database.sub_pairs in *. simpl.
  repeat split; try assumption.
  - rewrite map_app. simpl. apply NoDup_app; [assumption | repeat constructor; intros [] |].
    intros p Hp [<- | []]. contradiction.
  - rewrite map_app. simpl. apply NoDup_app; [assumption | repeat constructor; intros [] |].
    intros i Hi [<- | []]. apply in_map_iff in Hi as [r [Hr Hin]].
    rewrite Forall_forall in H5. specialize (H5 r Hin). lia.
  - apply Forall_app. split.
    + eapply Forall_impl; [| exact H5]. simpl. intros r Hr. lia.
    + repeat constructor. simpl. lia.
Qed.

Lemma remove_subscription_keeps_wf d guild_id keyword :
  store_wf d -> store_wf (Database.remove_subscription d guild_id keyword).
Proof.
  intros (H1 & H2 & H3 & H4 & H5).
  unfold store_wf, Database.remove_subscription, Database.processed_ids,
    Database.sub_pairs in *. simpl.
  repeat split; try assumption.
  - now apply NoDup_map_filter.
  - now apply NoDup_map_filter.
  - rewrite Forall_forall in *. intros r Hr. apply filter_In in Hr as [Hr _]. now apply H5.
Qed.

Lemma mark_keeps_wf d now bounty_id :
  store_wf d -> store_wf (Database.mark_bounty_processed d now bounty_id).
Proof.
  intros (H1 & H2 & H3 & H4 & H5).
  pose proof (mark_keeps_unique d now bounty_id H1) as H1'.
  unfold store_wf. unfold Database.mark_bounty_processed in *.
  destruct (Database.is_bounty_processed d bounty_id); repeat split; assumption.
Qed.

(** X4. Every database the program can build from a fresh one, by any
    sequence of channel settings, subscriptions, removals and marks, keeps
    what the schema declares: one row per processed id, per
    (guild, keyword) pair, per guild and per subscription id, and no
    subscription id beyond the AUTOINCREMENT counter. *)
Theorem reachable_store_is_well_formed :
  forall updates,
    store_wf (fold_left apply_update updates Database.create_tables).
Proof.
  intros updates.
  assert (H : forall d, store_wf d -> store_wf (fold_left apply_update updates d)).
  { induction updates as [|u rest IH]; intros d Hd; [assumption |].
    simpl. apply IH. destruct u; simpl.
    - now apply set_channel_keeps_wf.
    - now apply add_subscription_keeps_wf.
    - now apply remove_subscription_keeps_wf.
    - now apply mark_keeps_wf. }
  apply H, store_wf_fresh.
Qed.

Lemma update_keeps_processed d u bounty_id :
  Database.is_bounty_processed d bounty_id = true ->
  Database.is_bounty_processed (apply_update d u) bounty_id = true.
Proof.
  intros H. destruct u; simpl; try assumption.
  - unfold Database.add_subscription, Database.insert_subscription.
    destruct (existsb _ _); assumption.
  - now apply mark_keeps_processed.
Qed.

(** X5. The processed set only grows: no statement the program issues
    (setting a channel, subscribing, unsubscribing, marking another
    listing) takes an id out of it, so a listing once marked stays
    marked, whatever the commands do afterwards. *)
Theorem processed_is_never_forgotten :
  forall updates d now bounty_id,
    Database.is_bounty_processed
      (fold_left apply_update updates (Database.mark_bounty_processed d now bounty_id))
      bounty_id = true.
Proof.
  intros updates d now bounty_id.
  assert (H : forall d0, Database.is_bounty_processed d0 bounty_id = true ->
              Database.is_bounty_processed (fold_left apply_update updates d0) bounty_id = true).
  { induction updates as [|u rest IH]; intros d0 Hd; [assumption |].
    simpl. apply IH. now apply update_keeps_processed. }
  apply H, mark_makes_processed.
Qed.



(** ** Configuration *)

(** X7. [Config.from_env] raises [ValueError] exactly when DISCORD_TOKEN
    is missing or empty. Otherwise the configuration carries the token,
    API_URL or the local default, API_KEY if there is one, mock mode
    exactly when USE_MOCK_API (default "true") reads "true" in any
    letter case, and always the built-in poll interval 60, timeout 10,
    three attempts and database path. *)
Theorem from_env_requires_a_token :
  forall getenv,
    ((exists msg, from_env getenv = Raise (ValueError msg))
     <-> (getenv "DISCORD_TOKEN" = None \/ getenv "DISCORD_TOKEN" = Some ""))
    /\ (forall cfg, from_env getenv = Ok cfg ->
          getenv "DISCORD_TOKEN" = Some (discord_token cfg)
          /\ discord_token cfg <> ""
          /\ api_url cfg = getenv_default getenv "API_URL" "http://localhost:8000/bounties"
          /\ api_key cfg = getenv "API_KEY"
          /\ (use_mock_api cfg = true
              <-> lower (getenv_default getenv "USE_MOCK_API" "true") = "true")
          /\ poll_interval cfg = 60 /\ api_timeout cfg = 10
          /\ max_retries cfg = 3 /\ db_path cfg = "bot.db").
Proof.
  intros getenv. unfold from_env.
  destruct (getenv "DISCORD_TOKEN") as [[|c tok] |] eqn:E; simpl.
  - split; [split; eauto | discriminate].
  - split.
    + split; [intros [msg H]; discriminate | intros [H | H]; discriminate].
    + intros cfg H. injection H as <-. simpl.
      repeat split; try reflexivity; try discriminate.
      * apply String.eqb_eq.
      * apply String.eqb_eq.
  - split; [split; eauto | discriminate].
Qed.

Lemma from_env_requires_a_token_witness :
  exists cfg,
    from_env (fun name => if String.eqb name "DISCORD_TOKEN" then Some "t"
                          else if String.eqb name "USE_MOCK_API" then Some "True"
                          else None) = Ok cfg
    /\ use_mock_api cfg = true /\ max_retries cfg = 3.
Proof.
  eexists. split; [reflexivity |].
  pose proof (proj2 (from_env_requires_a_token
                (fun name => if String.eqb name "DISCORD_TOKEN" then Some "t"
                             else if String.eqb name "USE_MOCK_API" then Some "True"
                             else None)) _ eq_refl) as (_ & _ & _ & _ & Hm & _ & _ & Hr & _).
  split; [apply Hm; reflexivity | exact Hr].
Defined.

(** ** Fanout *)

Lemma any_match_existsb loc keywords :
  any_match (JStr loc) keywords = Ok (existsb (matches_location loc) keywords).
Proof.
  induction keywords as [|k rest IH]; [reflexivity |]. cbn [any_match existsb].
  destruct (matches_location loc k); [reflexivity | exact IH].
Qed.

Lemma any_match_not_string location keywords :
  is_string location = false ->
  any_match location keywords
  = match keywords with [] => Ok false | _ :: _ => Raise AttributeError end.
Proof. intros H. destruct keywords; [reflexivity |]. now destruct location. Qed.

Lemma notify_guild_unmatched w bounty location guild_id channel_id s :
  store_fault w (tick s) (OpGetSubscriptions guild_id) = None ->
  any_match location (Database.get_subscriptions (db s) guild_id) = Ok false ->
  notify_guild w bounty location (guild_id, channel_id) s
  = (Ok tt, next s, [EvStore (OpGetSubscriptions guild_id)]).
Proof.
  intros H Hm.
  unfold notify_guild, try_except, bind, get_subscriptions, store_call, lift, ret.
  rewrite H. simpl. rewrite Hm. reflexivity.
Qed.

Lemma fanout_notify_trace :
  forall w bounty loc guilds s,
    (forall n g, store_fault w n (OpGetSubscriptions g) = None) ->
    filter is_notify (trace_of (for_each guilds (notify_guild w bounty (JStr loc)) s))
    = map (fun g => EvNotify (snd g) bounty (JStr loc))
        (filter (tenant_matches (db s) loc) guilds).
Proof.
  intros w bounty loc guilds. induction guilds as [|[g c] rest IH]; intros s Hok;
    [reflexivity |].
  rewrite for_each_cons. cbn [filter]. unfold tenant_matches at 1. cbn [fst].
  pose proof (any_match_existsb loc (Database.get_subscriptions (db s) g)) as Hm.
  destruct (existsb (matches_location loc) (Database.get_subscriptions (db s) g)).
  - rewrite (notify_guild_matched w bounty (JStr loc) g c s (Hok _ _) Hm).
    rewrite trace_of_run. cbn [map snd]. unfold send_bounty_notification at 1.
    rewrite trace_of_run. cbn [app filter is_notify]. f_equal.
    rewrite (IH (next (next s)) Hok). reflexivity.
  - rewrite (notify_guild_unmatched w bounty (JStr loc) g c s (Hok _ _) Hm).
    rewrite trace_of_run. cbn [app filter is_notify].
    rewrite (IH (next s) Hok). reflexivity.
Qed.

(** X8. When the subscriptions can be read, the loop over the tenants
    notifies exactly the tenants one of whose keywords occurs in the
    location (case-insensitively), each of them once however many of its
    keywords match, in the order of [get_all_guilds], on the tenant's own
    channel. *)
Theorem fanout_notifies_matching_tenants_once :
  forall w bounty loc guilds s,
    (forall n g, store_fault w n (OpGetSubscriptions g) = None) ->
    filter is_notify (trace_of (for_each guilds (notify_guild w bounty (JStr loc)) s))
    = map (fun g => EvNotify (snd g) bounty (JStr loc))
        (filter (tenant_matches (db s) loc) guilds).
Proof. exact fanout_notify_trace. Qed.

Lemma fanout_notifies_matching_tenants_once_witness :
  filter is_notify
    (trace_of (for_each (Database.get_all_guilds store_two_tenants)
                 (notify_guild (world_of (HttpRaises TimeoutError)) listing_remote
                    (JStr "Berlin, Germany")) two_tenants))
  = [EvNotify "200" listing_remote (JStr "Berlin, Germany")].
Proof.
  rewrite (fanout_notifies_matching_tenants_once (world_of (HttpRaises TimeoutError))
             listing_remote "Berlin, Germany" (Database.get_all_guilds store_two_tenants)
             two_tenants (fun _ _ => eq_refl)).
  reflexivity.
Defined.

Lemma fanout_non_string_location w bounty location guilds : forall s,
  is_string location = false ->
  sends (trace_of (for_each guilds (notify_guild w bounty location) s)) = 0%nat.
Proof.
  induction guilds as [|[g c] rest IH]; intros s Hloc; [reflexivity |].
  rewrite for_each_cons.
  assert (H1 : sends (trace_of (notify_guild w bounty location (g, c) s)) = 0%nat).
  { unfold notify_guild, try_except, bind, get_subscriptions, store_call, lift, ret,
      log, emit.
    destruct (store_fault w (tick s) (OpGetSubscriptions g)); simpl; [reflexivity |].
    rewrite (@any_match_not_string location _ Hloc).
    destruct (Database.get_subscriptions (db s) g); reflexivity. }
  destruct (notify_guild_returns w bounty location g c s) as (Hr & _).
  destruct (notify_guild w bounty location (g, c) s) as [[[[] | e] s1] t1]; [| discriminate].
  rewrite trace_of_run in *. rewrite sends_app, H1, (IH s1 Hloc). reflexivity.
Qed.

(** X9. A listing whose location is present but not a string (null, a
    number, a list ...) is sent to nobody, in any world: a tenant with at
    least one keyword fails on the comparison, which is logged, and a
    tenant without keywords has nothing to match. *)
Theorem non_string_location_is_never_sent :
  forall w d s,
    is_string (listing_location d) = false ->
    sends (trace_of (process_bounty w (JDict d) s)) = 0%nat.
Proof.
  intros w d s Hloc. apply process_bounty_cases; intros; try reflexivity.
  rewrite trace_of_run, sends_app. now rewrite fanout_non_string_location.
Qed.

Lemma non_string_location_is_never_sent_witness :
  sends (trace_of (process_bounty (world_of (HttpRaises TimeoutError))
                     (JDict [("id", JStr "9"); ("location", JNull)]) two_tenants)) = 0%nat.
Proof.
  apply (non_string_location_is_never_sent (world_of (HttpRaises TimeoutError))
           [("id", JStr "9"); ("location", JNull)] two_tenants).
  reflexivity.
Defined.

(** ** A batch that is cut short *)

Lemma for_each_app {A} (pre post : list A) body : forall s,
  for_each (pre ++ post) body s
  = match result_of (for_each pre body s) with
    | Ok _ =>
        (result_of (for_each post body (state_of (for_each pre body s))),
         state_of (for_each post body (state_of (for_each pre body s))),
         trace_of (for_each pre body s)
         ++ trace_of (for_each post body (state_of (for_each pre body s))))
    | Raise e => for_each pre body s
    end.
Proof.
  induction pre as [|x pre IH]; intros s.
  - cbn [app for_each]. unfold ret, result_of, state_of, trace_of. cbn [fst snd app].
    now destruct (for_each post body s) as [[r s'] t].
  - cbn [app]. rewrite !for_each_cons.
    destruct (body x s) as [[[a | e] s1] t1]; [| reflexivity].
    rewrite IH. rewrite !result_of_run, !state_of_run, !trace_of_run.
    destruct (for_each pre body s1) as [[[a' | e'] s2] t2];
      rewrite ?result_of_run, ?state_of_run, ?trace_of_run; [| reflexivity].
    now rewrite app_assoc.
Qed.

(** X10. A listing that is not an object (a string, a number, null ...)
    ends the batch: [process_bounty] raises [AttributeError] on it before
    any store call, and the listings after it are neither looked up,
    marked nor sent in that cycle. *)
Theorem malformed_listing_cuts_the_batch_short :
  forall w pre bad post s,
    is_dict bad = false ->
    result_of (for_each pre (process_bounty w) s) = Ok tt ->
    for_each (pre ++ bad :: post) (process_bounty w) s
    = (Raise AttributeError,
       state_of (for_each pre (process_bounty w) s),
       trace_of (for_each pre (process_bounty w) s)).
Proof.
  intros w pre bad post s Hbad Hpre.
  rewrite for_each_app, Hpre, for_each_cons.
  rewrite process_bounty_not_a_dict by (intros d ->; discriminate).
  rewrite result_of_run, state_of_run, trace_of_run. now rewrite app_nil_r.
Qed.

Lemma malformed_listing_cuts_the_batch_short_witness :
  for_each ([listing_1] ++ JStr "oops" :: [listing_remote])
    (process_bounty (world_of (HttpRaises TimeoutError))) two_tenants
  = (Raise AttributeError,
     state_of (for_each [listing_1] (process_bounty (world_of (HttpRaises TimeoutError)))
                 two_tenants),
     trace_of (for_each [listing_1] (process_bounty (world_of (HttpRaises TimeoutError)))
                 two_tenants)).
Proof.
  apply (malformed_listing_cuts_the_batch_short (world_of (HttpRaises TimeoutError))
           [listing_1] (JStr "oops") [listing_remote] two_tenants); reflexivity.
Defined.

(** X11. Marking comes first, so a store failure right after it loses
    the notification for good: when [get_all_guilds] raises for a new
    listing, the listing is already in the processed set, nobody has been
    notified, the exception leaves [process_bounty], and no later pass
    over a listing with that id sends anything. *)
Theorem store_failure_after_mark_loses_the_notification :
  forall w d s e,
    is_empty (listing_id w d) = false ->
    Database.is_bounty_processed (db s) (listing_id w d) = false ->
    store_fault w (tick s) (OpIsProcessed (listing_id w d)) = None ->
    store_fault w (S (tick s)) (OpMarkProcessed (listing_id w d)) = None ->
    store_fault w (S (S (tick s))) OpGetAllGuilds = Some e ->
    let run := process_bounty w (JDict d) s in
    result_of run = Raise e
    /\ sends (trace_of run) = 0%nat
    /\ Database.is_bounty_processed (db (state_of run)) (listing_id w d) = true
    /\ (forall w' s',
          db s' = db (state_of run) ->
          listing_id w' d = listing_id w d ->
          sends (trace_of (process_bounty w' (JDict d) s')) = 0%nat).
Proof.
  intros w d s e Hid Hnew F1 F2 F3 run. subst run.
  rewrite (process_bounty_new w d s Hid F1 Hnew F2), F3.
  rewrite result_of_run, state_of_run, trace_of_run. cbn [db].
  repeat split; try reflexivity.
  - apply mark_makes_processed.
  - intros w' s' Hdb Hsame. apply process_bounty_processed_silent.
    rewrite Hdb, Hsame. apply mark_makes_processed.
Qed.

Lemma store_failure_after_mark_loses_the_notification_witness :
  result_of (process_bounty world_failing_guild_list listing_remote two_tenants)
  = Raise (OperationalError "database is locked")
  /\ Database.is_bounty_processed
       (db (state_of (process_bounty world_failing_guild_list listing_remote two_tenants)))
       "1" = true.
Proof.
  pose proof (@store_failure_after_mark_loses_the_notification world_failing_guild_list
                [("id", JStr "1"); ("location", JStr "Remote")] two_tenants
                (OperationalError "database is locked")
                eq_refl eq_refl eq_refl eq_refl eq_refl) as (H1 & _ & H3 & _).
  split; [exact H1 | exact H3].
Defined.

(** ** The source client in any world *)

Lemma requests_app t1 t2 : requests (t1 ++ t2) = (requests t1 + requests t2)%nat.
Proof. unfold requests. now rewrite filter_app, length_app. Qed.

Section AnyWorld.
Variable w : World.
Variable cfg : Config.
Variables page per_page : Z.

Let request : event :=
  EvHttpGet (api_url cfg)
    (match api_key cfg with Some k => Some ("Bearer " ++ k)%string | None => None end)
    page per_page.

Lemma fetch_attempt_one_request s :
  requests (trace_of (fetch_attempt w cfg page per_page s)) = 1%nat
  /\ sleeps (trace_of (fetch_attempt w cfg page per_page s)) = []
  /\ state_of (fetch_attempt w cfg page per_page s) = next s.
Proof.
  destruct (fetch_attempt_shape w cfg page per_page s) as (r & t & -> & Ht).
  destruct (only_logs_quiet t Ht) as (_ & Hs & Hh).
  rewrite trace_of_run, state_of_run. unfold requests. cbn [filter is_http].
  rewrite Hh. unfold sleeps in *. cbn [flat_map app]. rewrite Hs. auto.
Qed.

Lemma retrying_bounds fuel : forall attempt_number s,
  max_retries cfg - attempt_number <= Z.of_nat fuel ->
  let t := trace_of (retrying w cfg page per_page fuel attempt_number s) in
  (1 <= requests t)%nat
  /\ (requests t <= Z.to_nat (Z.max 1 (max_retries cfg - attempt_number + 1)))%nat
  /\ S (List.length (sleeps t)) = requests t
  /\ Forall (fun x => 2 <= x <= 10) (sleeps t).
Proof.
  induction fuel as [|fuel IH]; intros k s Hfuel t; subst t;
    rewrite retrying_unfold; unfold try_except;
    destruct (fetch_attempt_one_request s) as (Hreq & Hsl & Hst);
    destruct (fetch_attempt w cfg page per_page s) as [[[v | e] s1] t1];
    rewrite trace_of_run, ?state_of_run in *;
    try (rewrite Hreq, Hsl; repeat split; [lia | lia | constructor]);
    (destruct (negb (retry_if_exception_type e));
     [unfold raise; rewrite trace_of_run, app_nil_r, Hreq, Hsl;
      repeat split; [lia | lia | constructor] |]);
    (destruct (stop_after_attempt (max_retries cfg) k) eqn:Hstop;
     [unfold raise; rewrite trace_of_run, app_nil_r, Hreq, Hsl;
      repeat split; [lia | lia | constructor] |]);
    unfold stop_after_attempt in Hstop; rewrite Z.geb_leb in Hstop;
    apply Z.leb_gt in Hstop.
  - simpl in Hfuel. lia.
  - destruct (IH (k + 1) s1) as (H1 & H2 & H3 & H4); [lia |].
    unfold bind, log, sleep, emit. cbn [app].
    destruct (retrying w cfg page per_page fuel (k + 1) s1) as [[r2 s2] t2].
    rewrite trace_of_run in *.
    change (EvLog (LogRetrying k) :: EvSleep (wait_exponential 1 2 10 k) :: t2)
      with ([EvLog (LogRetrying k); EvSleep (wait_exponential 1 2 10 k)] ++ t2).
    rewrite !requests_app, !sleeps_app, Hreq, Hsl.
    change (requests [EvLog (LogRetrying k); EvSleep (wait_exponential 1 2 10 k)])
      with 0%nat.
    change (sleeps [EvLog (LogRetrying k); EvSleep (wait_exponential 1 2 10 k)])
      with [wait_exponential 1 2 10 k].
    cbn [app Nat.add List.length].
    repeat split; try lia.
    constructor; [apply wait_bounds | assumption].
Qed.

Lemma fetch_attempt_transient_at s :
  is_transient (http w (tick s)) = true ->
  exists e t,
    fetch_attempt w cfg page per_page s = (Raise e, next s, request :: t)
    /\ retry_if_exception_type e = true
    /\ forallb is_log t = true.
Proof.
  intros H.
  unfold fetch_attempt, try_except, bind, http_get, lift, raise, log, emit, ret.
  fold request.
  destruct (http w (tick s)) as [e | status body]; simpl in H.
  - destruct e; try discriminate; simpl; eexists; eexists; repeat split; reflexivity.
  - apply Z.eqb_eq in H. subst status. simpl.
    eexists; eexists; repeat split; reflexivity.
Qed.

Lemma iter_next_state j s :
  db (Nat.iter j next s) = db s /\ tick (Nat.iter j next s) = (tick s + j)%nat.
Proof.
  induction j as [|j [IH1 IH2]]; simpl; [split; [reflexivity | lia] |].
  split; [assumption | lia].
Qed.

Lemma retrying_recovers j : forall fuel attempt_number s v s' t',
  (forall i, (i < j)%nat -> is_transient (http w (tick s + i)) = true) ->
  attempt_number + Z.of_nat j <= max_retries cfg ->
  (j <= fuel)%nat ->
  fetch_attempt w cfg page per_page (Nat.iter j next s) = (Ok v, s', t') ->
  let run := retrying w cfg page per_page fuel attempt_number s in
  result_of run = Ok v
  /\ state_of run = s'
  /\ requests (trace_of run) = S j
  /\ sleeps (trace_of run) = map (wait_exponential 1 2 10) (attempts_from attempt_number j).
Proof.
  induction j as [|j IH]; intros fuel k s v s' t' Htr Hk Hfuel Hlast run; subst run.
  - simpl in Hlast. rewrite (retrying_first_ok _ _ _ _ _ _ _ Hlast).
    rewrite result_of_run, state_of_run, trace_of_run.
    destruct (fetch_attempt_one_request s) as (Hreq & Hsl & _).
    rewrite Hlast, trace_of_run in Hreq, Hsl. auto.
  - destruct fuel as [|fuel]; [lia |].
    destruct (fetch_attempt_transient_at s) as (e & t & Ea & He & Ht).
    { rewrite <- (Nat.add_0_r (tick s)). apply Htr. lia. }
    assert (Hstop : stop_after_attempt (max_retries cfg) k = false).
    { unfold stop_after_attempt. rewrite Z.geb_leb. apply Z.leb_gt. lia. }
    pose proof (@retrying_again w cfg page per_page fuel k s _ _ _ Ea He Hstop) as E.
    cbv zeta in E. rewrite E. clear E.
    destruct (IH fuel (k + 1) (next s) v s' t') as (H1 & H2 & H3 & H4).
    + intros i Hi. cbn [next tick].
      replace (S (tick s) + i)%nat with (tick s + S i)%nat by lia.
      apply Htr. lia.
    + lia.
    + lia.
    + rewrite <- Hlast. f_equal. symmetry. apply Nat.iter_succ_r.
    + rewrite result_of_run, state_of_run, trace_of_run.
      destruct (only_logs_quiet t Ht) as (_ & Hsl & Hh).
      repeat split; try assumption.
      * change (request :: t) with ([request] ++ t).
        rewrite !requests_app, H3. unfold requests at 2. rewrite Hh. reflexivity.
      * change (request :: t) with ([request] ++ t).
        rewrite !sleeps_app, Hsl, H4. reflexivity.
Qed.

End AnyWorld.

(** X12. Whatever the server does, one call of [fetch_bounties] makes at
    least one request and at most [max_retries] of them (one if
    [max_retries] is below one), sleeps exactly once between two
    consecutive requests, each time between 2 and 10 seconds, never
    writes to the store and never notifies anybody. *)
Theorem fetch_bounties_attempt_budget :
  forall w cfg page per_page s,
    let run := fetch_bounties w cfg page per_page s in
    (1 <= requests (trace_of run) <= Z.to_nat (Z.max 1 (max_retries cfg)))%nat
    /\ S (List.length (sleeps (trace_of run))) = requests (trace_of run)
    /\ Forall (fun x => 2 <= x <= 10) (sleeps (trace_of run))
    /\ db (state_of run) = db s
    /\ sends (trace_of run) = 0%nat.
Proof.
  intros w cfg page per_page s run. subst run. unfold fetch_bounties.
  destruct (@retrying_bounds w cfg page per_page (Z.to_nat (max_retries cfg)) 1 s)
    as (H1 & H2 & H3 & H4); [lia |].
  destruct (retrying_quiet w cfg page per_page (Z.to_nat (max_retries cfg)) 1 s) as (H5 & H6).
  replace (max_retries cfg - 1 + 1) with (max_retries cfg) in H2 by lia.
  repeat split; assumption.
Qed.

Lemma fetch_attempt_reraises w cfg page per_page s e :
  http w (tick s) = HttpRaises e \/ http w (tick s) = HttpResponse 200 (Raise e) ->
  result_of (fetch_attempt w cfg page per_page s) = Raise e.
Proof.
  intros [H | H]; [| now apply fetch_attempt_undecodable].
  unfold fetch_attempt, try_except, bind, http_get, lift, raise, log, emit, ret.
  rewrite H. simpl. destruct e; reflexivity.
Qed.

(** X13. A failure that is neither a client error nor a timeout (a body
    that is not JSON, for one) is not retried and not turned into an empty
    result: [fetch_bounties] makes its one request and raises the very
    exception, which the poll cycle logs as a polling error; nothing is
    sent in that cycle. *)
Theorem other_failures_are_not_retried :
  forall w cfg s e,
    http w (tick s) = HttpRaises e \/ http w (tick s) = HttpResponse 200 (Raise e) ->
    retry_if_exception_type e = false ->
    let run := fetch_bounties w cfg 1 50 s in
    result_of run = Raise e
    /\ requests (trace_of run) = 1%nat
    /\ sleeps (trace_of run) = []
    /\ In (EvLog (LogPollingError e)) (trace_of (poll_cycle w cfg s))
    /\ sends (trace_of (poll_cycle w cfg s)) = 0%nat.
Proof.
  intros w cfg s e Hhttp Hretry run.
  pose proof (fetch_attempt_reraises w cfg 1 50 s Hhttp) as Hr.
  destruct (fetch_attempt_one_request w cfg 1 50 s) as (Hreq & Hsl & _).
  assert (E : fetch_bounties w cfg 1 50 s = fetch_attempt w cfg 1 50 s).
  { unfold fetch_bounties. rewrite retrying_unfold. unfold try_except.
    destruct (fetch_attempt w cfg 1 50 s) as [[[v | e'] s1] t1]; [reflexivity |].
    rewrite result_of_run in Hr. injection Hr as ->. rewrite Hretry.
    unfold raise. cbn [negb]. now rewrite app_nil_r. }
  subst run. rewrite poll_cycle_run. cbv zeta. rewrite E, Hr.
  repeat split; try assumption.
  - rewrite trace_of_run. right. apply in_or_app. right. now left.
  - rewrite trace_of_run.
    change (EvLog LogFetching :: ?x) with ([EvLog LogFetching] ++ x).
    rewrite !sends_app.
    destruct (fetch_bounties_quiet w cfg 1 50 s) as [_ Hq]. rewrite E in Hq.
    rewrite Hq. reflexivity.
Qed.

Lemma other_failures_are_not_retried_witness :
  result_of (fetch_bounties
               (world_of (HttpResponse 200 (Raise (ValueError "Expecting value"))))
               default_config 1 50 initial_state)
  = Raise (ValueError "Expecting value")
  /\ requests (trace_of (fetch_bounties
                 (world_of (HttpResponse 200 (Raise (ValueError "Expecting value"))))
                 default_config 1 50 initial_state)) = 1%nat.
Proof.
  pose proof (@other_failures_are_not_retried
                (world_of (HttpResponse 200 (Raise (ValueError "Expecting value"))))
                default_config initial_state (ValueError "Expecting value")
                (or_intror eq_refl) eq_refl) as (H1 & H2 & _).
  split; [exact H1 | exact H2].
Defined.

Lemma normalize_result_independent data s s' :
  result_of (normalize data s) = result_of (normalize data s').
Proof.
  destruct data; try reflexivity. unfold normalize.
  destruct (probe probe_keys d); reflexivity.
Qed.

(** X14. Retrying recovers: when the first [j] attempts fail with a
    transient error, [j] being less than [max_retries], and the next
    response is a decodable 200, [fetch_bounties] returns the normalized
    body of that response after [j + 1] requests and the first [j] waits
    of the backoff schedule. *)
Theorem fetch_recovers_after_transient_failures :
  forall w cfg page per_page s j data,
    (forall i, (i < j)%nat -> is_transient (http w (tick s + i)) = true) ->
    Z.of_nat j < max_retries cfg ->
    http w (tick s + j) = HttpResponse 200 (Ok data) ->
    let run := fetch_bounties w cfg page per_page s in
    result_of run = result_of (normalize data s)
    /\ requests (trace_of run) = S j
    /\ sleeps (trace_of run) = map (wait_exponential 1 2 10) (attempts_from 1 j).
Proof.
  intros w cfg page per_page s j data Htr Hj Hok run. subst run.
  destruct (iter_next_state j s) as [_ Htick].
  assert (H200 : http w (tick (Nat.iter j next s)) = HttpResponse 200 (Ok data)).
  { now rewrite Htick. }
  pose proof (fetch_attempt_200 w cfg page per_page (Nat.iter j next s) H200) as Ea.
  destruct (normalize_returns data (next (Nat.iter j next s))) as (v & t & En & _).
  rewrite En, result_of_run, trace_of_run in Ea.
  destruct (@retrying_recovers w cfg page per_page j (Z.to_nat (max_retries cfg)) 1 s
              v _ _ Htr ltac:(lia) ltac:(lia) Ea) as (H1 & _ & H3 & H4).
  unfold fetch_bounties.
  rewrite (normalize_result_independent data s (next (Nat.iter j next s))), En, result_of_run.
  repeat split; assumption.
Qed.

Lemma fetch_recovers_after_transient_failures_witness :
  result_of (fetch_bounties world_recovering default_config 1 50 initial_state)
  = Ok (JList [listing_remote])
  /\ sleeps (trace_of (fetch_bounties world_recovering default_config 1 50 initial_state))
     = [2; 2].
Proof.
  pose proof (@fetch_recovers_after_transient_failures world_recovering default_config 1 50
                initial_state 2 (JDict [("bounties", JList [listing_remote])])) as H.
  destruct H as (H1 & _ & H3).
  - intros i Hi. destruct i as [|[|i]]; [reflexivity | reflexivity | lia].
  - simpl. lia.
  - reflexivity.
  - split; [exact H1 | exact H3].
Defined.

(** ** The loop in any world *)

Lemma fanout_no_requests w bounty location guilds : forall s,
  requests (trace_of (for_each guilds (notify_guild w bounty location) s)) = 0%nat.
Proof.
  induction guilds as [|[g c] rest IH]; intros s; [reflexivity |].
  rewrite for_each_cons.
  assert (H1 : requests (trace_of (notify_guild w bounty location (g, c) s)) = 0%nat).
  { unfold notify_guild, try_except, bind, get_subscriptions, store_call, lift,
      send_bounty_notification, ret, log, emit.
    destruct (store_fault w (tick s) (OpGetSubscriptions g)); simpl; [reflexivity |].
    destruct (any_match location _) as [[|] | e]; reflexivity. }
  destruct (notify_guild w bounty location (g, c) s) as [[[[] | e] s1] t1];
    rewrite trace_of_run in *; [| assumption].
  rewrite requests_app, H1, IH. reflexivity.
Qed.

Lemma process_bounty_no_requests w bounty s :
  requests (trace_of (process_bounty w bounty s)) = 0%nat.
Proof.
  destruct (is_dict bounty) eqn:E.
  - destruct bounty; try discriminate.
    apply process_bounty_cases; intros; try reflexivity.
    rewrite trace_of_run, requests_app, fanout_no_requests. reflexivity.
  - rewrite process_bounty_not_a_dict; [reflexivity |]. intros d ->. discriminate.
Qed.

Lemma batch_no_requests w listings : forall s,
  requests (trace_of (for_each listings (process_bounty w) s)) = 0%nat.
Proof.
  induction listings as [|b rest IH]; intros s; [reflexivity |].
  rewrite for_each_cons.
  pose proof (process_bounty_no_requests w b s) as H1.
  destruct (process_bounty w b s) as [[[[] | e] s1] t1];
    rewrite trace_of_run in *; [| assumption].
  rewrite requests_app, H1, IH. reflexivity.
Qed.

Lemma poll_cycle_requests w cfg s :
  requests (trace_of (poll_cycle w cfg s))
  = requests (trace_of (fetch_bounties w cfg 1 50 s)).
Proof.
  rewrite poll_cycle_run. cbv zeta.
  destruct (result_of (fetch_bounties w cfg 1 50 s)) as [bounties | e].
  - destruct (py_len bounties) as [n | e]; [destruct (py_iter bounties) as [items | e] |];
      rewrite trace_of_run;
      change (EvLog LogFetching :: ?x) with ([EvLog LogFetching] ++ x);
      rewrite !requests_app.
    + change (EvLog (LogRetrieved n) :: ?x) with ([EvLog (LogRetrieved n)] ++ x).
      rewrite !requests_app, batch_no_requests.
      destruct (result_of (for_each items (process_bounty w) _));
        unfold requests; cbn [filter is_http List.length app]; lia.
    + unfold requests; cbn [filter is_http List.length app]; lia.
    + unfold requests; cbn [filter is_http List.length app]; lia.
  - rewrite trace_of_run.
    change (EvLog LogFetching :: ?x) with ([EvLog LogFetching] ++ x).
    rewrite !requests_app. unfold requests; cbn [filter is_http List.length app]; lia.
Qed.

(** X15. Nothing that happens inside a cycle ends the loop: for every
    server, store and chat platform, [poll_bounties] returns normally,
    and while the client is not closed each of its turns fetches again,
    so [cycles] turns make at least [cycles] requests and at most
    [max_retries] times as many. Once [is_closed] holds at the head of
    the loop, the loop ends without another request. *)
Theorem poll_loop_survives_every_failure :
  forall w cfg cycles s,
    result_of (poll_bounties w cfg cycles s) = Ok tt
    /\ ((forall n, closed w n = false) ->
        (cycles <= requests (trace_of (poll_bounties w cfg cycles s))
         <= cycles * Z.to_nat (Z.max 1 (max_retries cfg)))%nat)
    /\ (closed w (tick s) = true ->
        poll_bounties w cfg (S cycles) s = (Ok tt, s, [])).
Proof.
  intros w cfg cycles. split; [| split].
  - revert s. induction cycles as [|n IH]; intros s; [reflexivity |].
    cbn [poll_bounties]. destruct (closed w (tick s)); [reflexivity |].
    unfold bind. destruct (poll_cycle_returns w cfg s) as (s1 & t1 & ->).
    specialize (IH s1). destruct (poll_bounties w cfg n s1) as [[r s2] t2].
    now rewrite result_of_run in *.
  - intros Hopen. revert s. induction cycles as [|n IH]; intros s;
      [unfold requests; simpl; lia |].
    cbn [poll_bounties]. rewrite Hopen. unfold bind.
    pose proof (poll_cycle_requests w cfg s) as Hc.
    destruct (fetch_bounties_attempt_budget w cfg 1 50 s) as (Hb & _).
    destruct (poll_cycle_returns w cfg s) as (s1 & t1 & E). rewrite E in *.
    rewrite trace_of_run in Hc.
    specialize (IH s1). destruct (poll_bounties w cfg n s1) as [[r s2] t2].
    rewrite trace_of_run in *. rewrite requests_app, Hc. lia.
  - intros Hclosed. cbn [poll_bounties]. now rewrite Hclosed.
Qed.

Lemma poll_loop_survives_every_failure_witness :
  (3 <= requests (trace_of (poll_bounties world_failing_guild_list default_config 3
                              two_tenants)) <= 9)%nat.
Proof.
  apply (proj1 (proj2 (poll_loop_survives_every_failure world_failing_guild_list
                         default_config 3 two_tenants))).
  reflexivity.
Defined.

(** ** Pagination of the mock server *)

Lemma page_slice {A} (l : list A) (i : nat) (k : Z) :
  1 <= k ->
  py_slice l (Z.of_nat i * k) (Z.of_nat i * k + k)
  = firstn (Z.to_nat k) (skipn (i * Z.to_nat k) l).
Proof.
  intros Hk. unfold py_slice, slice_index.
  assert (Ha : 0 <= Z.of_nat i * k) by nia.
  destruct (Z.of_nat i * k <? 0) eqn:E1; [apply Z.ltb_lt in E1; lia |].
  destruct (Z.of_nat i * k + k <? 0) eqn:E2; [apply Z.ltb_lt in E2; lia |].
  set (len := Z.of_nat (List.length l)).
  replace (i * Z.to_nat k)%nat with (Z.to_nat (Z.of_nat i * k)) by nia.
  destruct (Z_le_gt_dec len (Z.of_nat i * k)) as [Hout | Hin].
  - rewrite !Z.min_r by lia. rewrite Z.sub_diag. simpl.
    rewrite skipn_all2 by (subst len; lia). now rewrite firstn_nil.
  - rewrite (Z.min_l (Z.of_nat i * k)) by lia.
    destruct (Z_le_gt_dec (Z.of_nat i * k + k) len) as [Hfull | Hshort].
    + rewrite Z.min_l by lia. f_equal. lia.
    + rewrite Z.min_r by lia.
      rewrite !firstn_all2; [reflexivity | |]; rewrite length_skipn; subst len; lia.
Qed.

Lemma chunks_concat {A} (K : nat) : forall n (l : list A),
  (0 < K)%nat ->
  (List.length l <= n * K)%nat ->
  List.concat (map (fun i => firstn K (skipn (i * K) l)) (seq 0 n)) = l.
Proof.
  induction n as [|n IH]; intros l HK Hlen.
  - simpl in *. destruct l; [reflexivity | simpl in Hlen; lia].
  - cbn [seq map List.concat]. rewrite <- seq_shift, map_map. simpl skipn at 1.
    rewrite (map_ext _ (fun i => firstn K (skipn (i * K) (skipn K l)))).
    + rewrite IH; [apply firstn_skipn | assumption |].
      rewrite length_skipn. simpl in Hlen. lia.
    + intros i. rewrite skipn_skipn. f_equal. f_equal. simpl. lia.
Qed.

Lemma total_pages_bounds total k :
  0 <= total -> 1 <= k ->
  let n := (total + k - 1) / k in
  0 <= n /\ total <= n * k /\ (n - 1) * k < total \/ (total = 0 /\ n = 0).
Proof.
  intros Ht Hk n. subst n.
  pose proof (Z.div_mod (total + k - 1) k ltac:(lia)) as Hdm.
  pose proof (Z.mod_pos_bound (total + k - 1) k ltac:(lia)) as Hmod.
  destruct (Z.eq_dec total 0) as [-> | Hne].
  - right. split; [reflexivity |]. simpl. apply Z.div_small. lia.
  - left. assert (0 <= (total + k - 1) / k) by (apply Z.div_pos; lia). nia.
Qed.

Lemma get_bounties_page all_bounties page per_page :
  1 <= page -> 1 <= per_page <= 100 ->
  MockAPI.page_of (MockAPI.get_bounties all_bounties page per_page None)
  = firstn (Z.to_nat per_page)
      (skipn (Z.to_nat (page - 1) * Z.to_nat per_page) all_bounties)
  /\ MockAPI.total_pages_of (MockAPI.get_bounties all_bounties page per_page None)
     = (Z.of_nat (List.length all_bounties) + per_page - 1) / per_page.
Proof.
  intros Hp Hk. unfold MockAPI.get_bounties.
  replace (page <? 1) with false by (symmetry; apply Z.ltb_ge; lia).
  replace (per_page <? 1) with false by (symmetry; apply Z.ltb_ge; lia).
  replace (100 <? per_page) with false by (symmetry; apply Z.ltb_ge; lia).
  cbn [orb MockAPI.page_of MockAPI.total_pages_of]. split; [| reflexivity].
  replace (page - 1) with (Z.of_nat (Z.to_nat (page - 1))) at 1 2 by lia.
  rewrite page_slice by lia. reflexivity.
Qed.

(** X16. The pages of the mock server cut the listing sequence into
    consecutive pieces: a page never holds more than [per_page] listings,
    the pages 1 to [total_pages] put one after the other are the whole
    sequence, each of them is non-empty, and every page after
    [total_pages] is empty. *)
Theorem pages_partition_the_listings :
  forall all_bounties per_page,
    1 <= per_page <= 100 ->
    let total_pages :=
      MockAPI.total_pages_of (MockAPI.get_bounties all_bounties 1 per_page None) in
    let page p := MockAPI.page_of (MockAPI.get_bounties all_bounties p per_page None) in
    List.concat (map (fun i => page (Z.of_nat i + 1)) (seq 0 (Z.to_nat total_pages)))
    = all_bounties
    /\ (forall p, 1 <= p -> Z.of_nat (List.length (page p)) <= per_page)
    /\ (forall p, 1 <= p <= total_pages -> page p <> [])
    /\ (forall p, total_pages < p -> page p = []).
Proof.
  intros all_bounties per_page Hk total_pages page.
  assert (Hpage : forall p, 1 <= p ->
            page p = firstn (Z.to_nat per_page)
                       (skipn (Z.to_nat (p - 1) * Z.to_nat per_page) all_bounties)).
  { intros p Hp. subst page. now apply get_bounties_page. }
  assert (Htotal : total_pages
                   = (Z.of_nat (List.length all_bounties) + per_page - 1) / per_page).
  { subst total_pages. apply get_bounties_page; lia. }
  pose proof (@total_pages_bounds (Z.of_nat (List.length all_bounties)) per_page
                ltac:(lia) ltac:(lia)) as Hb.
  cbv zeta in Hb. rewrite <- Htotal in Hb.
  split; [| split; [| split]].
  - rewrite (map_ext_in _ (fun i => firstn (Z.to_nat per_page)
                                      (skipn (i * Z.to_nat per_page) all_bounties))).
    + apply chunks_concat; [lia | nia].
    + intros i _. rewrite Hpage by lia. do 3 f_equal. lia.
  - intros p Hp. rewrite Hpage by assumption. rewrite length_firstn. lia.
  - intros p Hp. rewrite Hpage by lia. intros Hnil.
    apply (f_equal (@List.length json)) in Hnil.
    rewrite length_firstn, length_skipn in Hnil. simpl in Hnil. nia.
  - intros p Hp. assert (1 <= p) by lia. rewrite Hpage by assumption.
    rewrite skipn_all2 by nia. apply firstn_nil.
Qed.

Lemma pages_partition_the_listings_witness :
  List.concat (map (fun i => MockAPI.page_of
                          (MockAPI.get_bounties [JInt 1; JInt 2; JInt 3; JInt 4; JInt 5]
                             (Z.of_nat i + 1) 2 None))
            (seq 0 3))
  = [JInt 1; JInt 2; JInt 3; JInt 4; JInt 5].
Proof.
  apply (proj1 (@pages_partition_the_listings [JInt 1; JInt 2; JInt 3; JInt 4; JInt 5] 2
                  ltac:(lia))).
Defined.

(** ** The client against the mock server *)

(** X17. The client understands the mock server: when the answer to a
    request is the one [get_bounties] gives, [fetch_bounties] returns
    exactly the listings of the requested page (found under the key
    bounties, the first the client probes), and the empty sequence when
    the server refuses the parameters (422) or fails on a listing (500).
    For the request the bot makes, page 1 of 50, these are the first 50
    listings. *)
Theorem client_reads_the_mock_server :
  forall w cfg s all_bounties page per_page location error_body,
    http w (tick s)
    = MockAPI.on_the_wire (MockAPI.get_bounties all_bounties page per_page location)
        error_body ->
    result_of (fetch_bounties w cfg page per_page s)
    = Ok (JList (MockAPI.page_of (MockAPI.get_bounties all_bounties page per_page location)))
    /\ MockAPI.page_of (MockAPI.get_bounties all_bounties 1 50 None)
       = firstn 50 all_bounties.
Proof.
  intros w cfg s all_bounties page per_page location error_body Hhttp. split.
  - unfold MockAPI.get_bounties in *.
    destruct ((page <? 1) || (per_page <? 1) || (100 <? per_page)).
    { simpl in *.
      now rewrite (fetch_bounties_first_ok _ _ _ _ _
                     (fetch_attempt_other_status w cfg page per_page s Hhttp
                        ltac:(discriminate) ltac:(discriminate) ltac:(discriminate))). }
    destruct (match location with
              | Some loc => if is_empty loc then Ok all_bounties
                            else MockAPI.filter_by_location loc all_bounties
              | None => Ok all_bounties
              end) as [kept | e].
    + cbn [MockAPI.on_the_wire MockAPI.page_of] in *.
      destruct (fetch_bounties_200 w cfg page per_page s Hhttp) as [_ ->]. reflexivity.
    + simpl in *.
      now rewrite (fetch_bounties_first_ok _ _ _ _ _
                     (fetch_attempt_other_status w cfg page per_page s Hhttp
                        ltac:(discriminate) ltac:(discriminate) ltac:(discriminate))).
  - destruct (@get_bounties_page all_bounties 1 50 ltac:(lia) ltac:(lia)) as [-> _].
    reflexivity.
Qed.

Lemma client_reads_the_mock_server_witness :
  result_of (fetch_bounties
               (world_of (MockAPI.on_the_wire
                            (MockAPI.get_bounties [listing_1; listing_remote] 2 1 None)
                            (Ok JNull)))
               default_config 2 1 initial_state)
  = Ok (JList [listing_remote]).
Proof.
  apply (proj1 (@client_reads_the_mock_server
                  (world_of (MockAPI.on_the_wire
                               (MockAPI.get_bounties [listing_1; listing_remote] 2 1 None)
                               (Ok JNull)))
                  default_config initial_state [listing_1; listing_remote] 2 1 None
                  (Ok JNull) eq_refl)).
Defined.

(** X18. The location filter of the mock server is the matcher of the
    bot: on listings that carry a string location, [get_bounties] with a
    location keeps exactly the listings for which [matches_location]
    holds with that keyword, in their order; a listing without a string
    location makes the filtered request fail instead. *)
Theorem server_filter_is_the_bot_matcher :
  forall keyword all_bounties,
    (forall b, In b all_bounties -> exists loc, MockAPI.location_of b = Ok loc) ->
    MockAPI.filter_by_location keyword all_bounties
    = Ok (filter (fun b => match MockAPI.location_of b with
                           | Ok loc => matches_location loc keyword
                           | Raise _ => false
                           end) all_bounties)
    /\ (forall b e rest,
          MockAPI.location_of b = Raise e ->
          MockAPI.filter_by_location keyword (b :: rest) = Raise e).
Proof.
  intros keyword all_bounties Hall. split.
  - induction all_bounties as [|b rest IH]; [reflexivity |].
    cbn [MockAPI.filter_by_location filter].
    destruct (Hall b (or_introl eq_refl)) as [loc ->].
    rewrite IH by (intros b' Hb'; apply Hall; now right).
    unfold matches_location. now destruct (str_in (lower keyword) (lower loc)).
  - intros b e rest Hb. cbn [MockAPI.filter_by_location]. now rewrite Hb.
Qed.

Lemma server_filter_is_the_bot_matcher_witness :
  MockAPI.filter_by_location "remote" [listing_remote]
  = Ok [listing_remote].
Proof.
  rewrite (proj1 (@server_filter_is_the_bot_matcher "remote" [listing_remote]
                    ltac:(intros b [<- | []]; eexists; reflexivity))).
  reflexivity.
Defined.

(** X19. [get_bounty] on listings that carry a string id: it answers
    with a listing of the list that has the id asked for, the first such
    one, whenever there is one, and with 404 exactly when there is
    none. *)
Theorem get_bounty_finds_the_first_match :
  forall all_bounties bounty_id,
    (forall b, In b all_bounties -> exists s, py_item b "id" = Ok (JStr s)) ->
    (forall pre b post,
        all_bounties = pre ++ b :: post ->
        py_item b "id" = Ok (JStr bounty_id) ->
        (forall b', In b' pre -> py_item b' "id" <> Ok (JStr bounty_id)) ->
        MockAPI.get_bounty all_bounties bounty_id = MockAPI.Json 200 b)
    /\ (MockAPI.get_bounty all_bounties bounty_id
        = MockAPI.Json 404 (JDict [("error", JStr "Bounty not found")])
        <-> forall b, In b all_bounties -> py_item b "id" <> Ok (JStr bounty_id))
    /\ (forall e, MockAPI.get_bounty all_bounties bounty_id <> MockAPI.InternalError e).
Proof.
  intros all_bounties bounty_id Hall.
  assert (Hid : forall b, In b all_bounties ->
            exists s, py_item b "id" = Ok (JStr s)
                      /\ MockAPI.id_is b bounty_id = Ok (String.eqb s bounty_id)).
  { intros b Hb. destruct (Hall b Hb) as [s Hs]. exists s. split; [assumption |].
    unfold MockAPI.id_is. now rewrite Hs. }
  clear Hall. unfold MockAPI.get_bounty.
  split; [| split].
  - intros pre b post -> Hb Hpre.
    induction pre as [|p pre IH]; cbn [app MockAPI.find_bounty].
    + destruct (Hid b (or_introl eq_refl)) as (s & Hs & ->).
      rewrite Hb in Hs. injection Hs as <-. now rewrite String.eqb_refl.
    + destruct (Hid p (or_introl eq_refl)) as (s & Hs & ->).
      destruct (String.eqb s bounty_id) eqn:E.
      * apply String.eqb_eq in E. subst s. exfalso. apply (Hpre p); [now left | assumption].
      * apply IH.
        -- intros b' Hb'. apply Hid. now right.
        -- intros b' Hb'. apply Hpre. now right.
  - induction all_bounties as [|p rest IH]; cbn [MockAPI.find_bounty].
    + split; [intros _ b [] | reflexivity].
    + destruct (Hid p (or_introl eq_refl)) as (s & Hs & ->).
      destruct (String.eqb s bounty_id) eqn:E.
      * apply String.eqb_eq in E. subst s. split; [discriminate |].
        intros H. exfalso. apply (H p); [now left | assumption].
      * rewrite IH by (intros b' Hb'; apply Hid; now right). split.
        -- intros H b [<- | Hb]; [| now apply H].
           rewrite Hs. intros Heq. injection Heq as ->.
           now rewrite String.eqb_refl in E.
        -- intros H b Hb. apply H. now right.
  - intros e. induction all_bounties as [|p rest IH]; cbn [MockAPI.find_bounty];
      [discriminate |].
    destruct (Hid p (or_introl eq_refl)) as (s & Hs & ->).
    destruct (String.eqb s bounty_id); [discriminate |].
    apply IH. intros b' Hb'. apply Hid. now right.
Qed.

Lemma get_bounty_finds_the_first_match_witness :
  MockAPI.get_bounty [listing_1; listing_remote] "1" = MockAPI.Json 200 listing_1.
Proof.
  apply (proj1 (@get_bounty_finds_the_first_match [listing_1; listing_remote] "1"
                  ltac:(intros b [<- | [<- | []]]; eexists; reflexivity))
           [] listing_1 [listing_remote]).
  - reflexivity.
  - reflexivity.
  - intros b' [].
Defined.

(** ** The embed *)



Lemma prefix_of_short_string n : forall s,
  (String.length s <= n)%nat -> String.substring 0 n s = s.
Proof.
  induction n as [|n IH]; intros s H; destruct s as [|c s]; simpl in *; try reflexivity.
  - lia.
  - f_equal. apply IH. lia.
Qed.

Lemma py_slice_prefix {A} (l : list A) n :
  0 <= n -> py_slice l 0 n = firstn (Z.to_nat n) l.
Proof.
  intros Hn. unfold py_slice, slice_index. change (0 <? 0) with false. cbv iota.
  destruct (n <? 0) eqn:E; [apply Z.ltb_lt in E; lia |].
  rewrite (Z.min_l 0) by lia. change (Z.to_nat 0) with 0%nat. cbn [skipn].
  rewrite Z.sub_0_r.
  destruct (Z_le_gt_dec n (Z.of_nat (List.length l))).
  - now rewrite Z.min_l by lia.
  - rewrite Z.min_r by lia. rewrite !firstn_all2; [reflexivity | lia | lia].
Qed.

Lemma shorten_string s :
  shorten (JStr s)
  = Ok (JStr (if (500 <? String.length s)%nat
              then (String.substring 0 497 s ++ "...")%string else s)).
Proof. unfold shorten, py_len. now destruct (500 <? String.length s)%nat. Qed.





Lemma strings_of_prefix_length l : forall ss,
  strings_of l = Ok ss -> List.length ss = List.length l.
Proof.
  induction l as [|v l IH]; intros ss H; simpl in H.
  - now injection H as <-.
  - destruct v; try discriminate. destruct (strings_of l) as [ss' |]; [| discriminate].
    injection H as <-. simpl. f_equal. now apply IH.
Qed.

(** X21. An embed lists at most five skills. For a listing that renders
    (a description that is absent or a string), a non-empty skills list
    whose first five items are strings gives a fourth field holding those
    first items joined by commas, and nothing after the fifth item is even
    looked at; a listing without skills, or with an empty list, has the
    three fields Location, Reward and Deadline only. *)
Theorem embed_lists_at_most_five_skills :
  forall repr now d location s0,
    (match dict_get d "description" with
     | Some v => v
     | None => JStr "No description provided"
     end) = JStr s0 ->
    let three :=
      [("📍 Location", location, true);
       ("💵 Reward",
        match dict_get d "reward" with Some v => v | None => JStr "Not specified" end, true);
       ("⏰ Deadline",
        match dict_get d "deadline" with Some v => v | None => JStr "Not specified" end,
        true)] in
    (forall l ss,
        dict_get d "skills" = Some (JList l) -> l <> [] ->
        strings_of (firstn 5 l) = Ok ss ->
        (List.length ss <= 5)%nat
        /\ exists e,
             create_bounty_embed repr now (JDict d) location = Ok e
             /\ embed_fields e = three ++ [("🛠️ Skills", JStr (String.concat ", " ss), false)])
    /\ (dict_get d "skills" = None \/ dict_get d "skills" = Some (JList []) ->
        exists e,
          create_bounty_embed repr now (JDict d) location = Ok e
          /\ embed_fields e = three).
Proof.
  intros repr now d location s0 Hdesc three. subst three.
  unfold create_bounty_embed, py_get. rewrite Hdesc, shorten_string. split.
  - intros l ss Hsk Hne Hss. rewrite Hsk.
    split.
    { rewrite (strings_of_prefix_length _ Hss), length_firstn. lia. }
    destruct l as [|v l]; [contradiction |]. cbn [py_truthy].
    unfold join_skills. rewrite py_slice_prefix by lia.
    change (Z.to_nat 5) with 5%nat. rewrite Hss.
    eexists. split; reflexivity.
  - intros [-> | ->]; cbn [py_truthy]; eexists; split; reflexivity.
Qed.

Lemma embed_lists_at_most_five_skills_witness :
  exists e,
    create_bounty_embed (fun _ => "") 0
      (JDict [("skills", JList [JStr "a"; JStr "b"; JStr "c"; JStr "d"; JStr "e"; JInt 6])])
      (JStr "Remote") = Ok e
    /\ embed_fields e
       = [("📍 Location", JStr "Remote", true);
          ("💵 Reward", JStr "Not specified", true);
          ("⏰ Deadline", JStr "Not specified", true)]
         ++ [("🛠️ Skills", JStr (String.concat ", " ["a"; "b"; "c"; "d"; "e"]), false)].
Proof.
  apply (proj1 (@embed_lists_at_most_five_skills (fun _ => "") 0
                  [("skills", JList [JStr "a"; JStr "b"; JStr "c"; JStr "d"; JStr "e"; JInt 6])]
                  (JStr "Remote") "No description provided" eq_refl)
           [JStr "a"; JStr "b"; JStr "c"; JStr "d"; JStr "e"; JInt 6]
           ["a"; "b"; "c"; "d"; "e"]).
  - reflexivity.
  - discriminate.
  - reflexivity.
Defined.

(** ** The command surface *)

Section CommandRuns.
Variable sh : Commands.Shell.
Variables guild_id keyword : string.
Variable s : state.

Ltac run_command :=
  unfold Commands.subscribe, Commands.setchannel, Commands.unsubscribe,
    Commands.subscriptions, Commands.ctry, Commands.cbind, Commands.store,
    Commands.reply, Commands.say, Commands.cret, Commands.craise.

Lemma subscribe_without_channel :
  Commands.store_fails sh (tick s) = None ->
  Commands.reply_fails sh (S (tick s)) = None ->
  Commands.no_channel (Database.get_channel (db s) guild_id) = true ->
  Commands.subscribe sh guild_id keyword s
  = (Ok tt, next (next s),
     [Commands.Replied "⚠️ Please set a notification channel first using `/setchannel`"
        true]).
Proof.
  intros H1 H2 H3. run_command. rewrite H1. cbn [tick db]. rewrite H3. cbn [tick].
  rewrite H2. reflexivity.
Qed.


End CommandRuns.

(** X22. [/subscribe] before any channel is set: the command answers
    with the request to set a channel first and leaves the store as it
    was; [add_subscription] is not reached. *)
Theorem subscribe_needs_a_channel :
  forall sh guild_id keyword s,
    Commands.store_fails sh (tick s) = None ->
    Commands.reply_fails sh (S (tick s)) = None ->
    Database.get_channel (db s) guild_id = None ->
    let run := Commands.subscribe sh guild_id keyword s in
    Commands.result_of run = Ok tt
    /\ db (Commands.state_of run) = db s
    /\ tick (Commands.state_of run) = S (S (tick s))
    /\ Commands.trace_of run
       = [Commands.Replied "⚠️ Please set a notification channel first using `/setchannel`"
            true].
Proof.
  intros sh guild_id keyword s H1 H2 H3 run. subst run.
  rewrite subscribe_without_channel by (try assumption; now rewrite H3).
  repeat split.
Qed.

Lemma subscribe_needs_a_channel_witness :
  db (Commands.state_of (Commands.subscribe Commands.calm "g9" "Berlin" two_tenants))
  = store_two_tenants.
Proof.
  apply (@subscribe_needs_a_channel Commands.calm "g9" "Berlin" two_tenants
           eq_refl eq_refl eq_refl).
Defined.



Ltac run_commands :=
  unfold Commands.run, Commands.has_manage_guild, Commands.subscribe, Commands.setchannel,
    Commands.unsubscribe, Commands.subscriptions, Commands.ctry, Commands.cbind,
    Commands.store, Commands.reply, Commands.say, Commands.cret, Commands.craise,
    Commands.result_of, Commands.state_of, Commands.trace_of.

(** X24. A command answers exactly once whenever the replies go
    through, whatever the store does, and with the permission it returns
    normally. When the store is down, every statement raising, the answer
    is the failure message of the command and the store is left as it
    was. *)
Theorem every_command_answers_once :
  forall sh manage_guild c s,
    (forall n, Commands.reply_fails sh n = None) ->
    let run := Commands.run sh manage_guild c s in
    List.length (Commands.replies (Commands.trace_of run)) = 1%nat
    /\ (manage_guild = true -> Commands.result_of run = Ok tt)
    /\ ((forall n, Commands.store_fails sh n <> None) ->
        manage_guild = true ->
        Commands.replies (Commands.trace_of run) = [failure_message c]
        /\ db (Commands.state_of run) = db s).
Proof.
  intros sh manage_guild c s Hr run. subst run.
  destruct c, manage_guild; run_commands; cbn [tick db];
    repeat (rewrite ?Hr; cbn [tick db fst snd app];
            match goal with
            | |- context [Commands.store_fails sh ?n] =>
                let E := fresh "E" in
                destruct (Commands.store_fails sh n) eqn:E
            | |- context [Commands.no_channel ?x] => destruct (Commands.no_channel x)
            | |- context [Database.add_subscription ?d ?g ?k] =>
                unfold Database.add_subscription, Database.insert_subscription
            | |- context [existsb ?f ?l] => destruct (existsb f l)
            | |- context [Database.get_subscriptions ?d ?g] =>
                destruct (Database.get_subscriptions d g)
            end);
    rewrite ?Hr; cbn [tick db fst snd app Commands.replies flat_map List.length];
    repeat split; try discriminate; try reflexivity;
    try (intros; exfalso;
         match goal with
         | Hdown : forall n, Commands.store_fails sh n <> None,
           E : Commands.store_fails sh ?n = None |- _ => exact (Hdown n E)
         end).
Qed.

Lemma every_command_answers_once_witness :
  Commands.replies
    (Commands.trace_of
       (Commands.run {| Commands.store_fails := fun _ => Some (OperationalError "disk full");
                        Commands.reply_fails := fun _ => None |}
          true (Commands.UnsubscribeCmd "g1" "remote") two_tenants))
  = ["❌ Failed to unsubscribe. Please try again."].
Proof.
  apply (proj2 (proj2 (@every_command_answers_once
                  {| Commands.store_fails := fun _ => Some (OperationalError "disk full");
                     Commands.reply_fails := fun _ => None |}
                  true (Commands.UnsubscribeCmd "g1" "remote") two_tenants
                  (fun _ => eq_refl)))).
  - intros n. discriminate.
  - reflexivity.
Defined.

(** X25. Without the Manage Server permission no command changes the
    store, in any shell: the three guarded commands are not run at all
    (the only call made is the reply that names the missing permission,
    and the check fails), and the listing of subscriptions, which is open
    to everybody, only reads. *)
Theorem no_permission_no_change :
  forall sh c s,
    let run := Commands.run sh false c s in
    db (Commands.state_of run) = db s
    /\ (is_guarded c = true ->
        tick (Commands.state_of run) = S (tick s)
        /\ (forall e, Commands.result_of run <> Ok e)
        /\ (Commands.reply_fails sh (tick s) = None ->
            run = (Raise (OtherException "CheckFailure"), next s,
                   [Commands.Replied
                      "❌ You need 'Manage Server' permission to use this command." true]))).
Proof.
  intros sh c s run. subst run.
  destruct c; run_commands; cbn [tick db is_guarded];
    try (destruct (Commands.reply_fails sh (tick s));
         cbn [fst snd db tick]; repeat split; try discriminate; reflexivity).
  split; [| discriminate].
  repeat (cbn [tick db fst snd next];
          match goal with
          | |- context [Commands.store_fails sh ?n] =>
              destruct (Commands.store_fails sh n)
          | |- context [Commands.reply_fails sh ?n] =>
              destruct (Commands.reply_fails sh n)
          | |- context [Database.get_subscriptions ?d ?g] =>
              destruct (Database.get_subscriptions d g)
          end);
    reflexivity.
Qed.

Lemma no_permission_no_change_witness :
  tick (Commands.state_of
          (Commands.run Commands.calm false (Commands.SubscribeCmd "g1" "Oslo") two_tenants))
  = 1%nat.
Proof.
  apply (proj2 (@no_permission_no_change Commands.calm
                  (Commands.SubscribeCmd "g1" "Oslo") two_tenants)).
  reflexivity.
Defined.

(** X26. [/unsubscribe] confirms, whether or not the keyword was
    subscribed: when nothing fails, the store afterwards is the one
    [remove_subscription] leaves (unchanged if the pair was not there)
    and the answer is the same confirmation. *)
Theorem unsubscribe_always_confirms :
  forall sh guild_id keyword s,
    Commands.store_fails sh (tick s) = None ->
    Commands.reply_fails sh (S (tick s)) = None ->
    let run := Commands.unsubscribe sh guild_id keyword s in
    Commands.result_of run = Ok tt
    /\ db (Commands.state_of run) = Database.remove_subscription (db s) guild_id keyword
    /\ Commands.replies (Commands.trace_of run)
       = [("✅ Unsubscribed from **" ++ keyword ++ "**")%string]
    /\ ~ In keyword (Database.get_subscriptions (db (Commands.state_of run)) guild_id)
    /\ (~ In (guild_id, keyword) (Database.sub_pairs (db s)) ->
        db (Commands.state_of run) = db s).
Proof.
  intros sh guild_id keyword s H1 H2 run. subst run. run_commands.
  rewrite H1. cbn [tick db]. rewrite H2. cbn [fst snd app db next].
  split; [reflexivity |]. split; [reflexivity |]. split; [reflexivity |]. split.
  - rewrite remove_subscription_keywords, String.eqb_refl.
    intros Hin. apply filter_In in Hin as [_ H]. now rewrite String.eqb_refl in H.
  - intros Hnot. unfold Database.remove_subscription.
    rewrite filter_same_pair_absent by exact Hnot. now destruct (db s).
Qed.

Lemma unsubscribe_always_confirms_witness :
  Commands.replies
    (Commands.trace_of (Commands.unsubscribe Commands.calm "g1" "Paris" two_tenants))
  = ["✅ Unsubscribed from **Paris**"]
  /\ db (Commands.state_of (Commands.unsubscribe Commands.calm "g1" "Paris" two_tenants))
     = store_two_tenants.
Proof.
  pose proof (@unsubscribe_always_confirms Commands.calm "g1" "Paris" two_tenants
                eq_refl eq_refl) as (_ & _ & H3 & _ & H5).
  split; [exact H3 |]. apply H5.
  simpl. intros [H | [H | [H | []]]]; discriminate.
Defined.

(** ** From the commands to a notification *)

Lemma setup_store guild_id channel_id mention keyword :
  is_empty channel_id = false ->
  db (Commands.state_of
        (Commands.run Commands.calm true (Commands.SubscribeCmd guild_id keyword)
           (Commands.state_of
              (Commands.run Commands.calm true
                 (Commands.SetChannelCmd guild_id channel_id mention) initial_state))))
  = {| Database.guild_settings := [(guild_id, channel_id)];
       Database.subscriptions :=
         [{| Database.sub_id := 1; Database.sub_guild := guild_id;
             Database.sub_keyword := keyword |}];
       Database.sub_seq := 1;
       Database.processed_bounties := [] |}.
Proof.
  intros Hc. run_commands. cbn [Commands.calm Commands.store_fails Commands.reply_fails
    fst snd tick db next initial_state Database.create_tables Database.set_channel
    Database.get_channel Database.guild_settings Database.subscriptions Database.sub_seq
    Database.processed_bounties filter app Database.assoc].
  rewrite String.eqb_refl. cbn [Commands.no_channel]. rewrite Hc.
  reflexivity.
Qed.

Lemma filter_notify_quiet t : sends t = 0%nat -> filter is_notify t = [].
Proof. unfold sends. intros H. now apply length_zero_iff_nil. Qed.

(** A cycle that fetches one new listing, the store answering. *)
Lemma single_listing_cycle w cfg s d loc :
  (forall n op, store_fault w n op = None) ->
  http w (tick s) = HttpResponse 200 (Ok (JList [JDict d])) ->
  is_empty (listing_id w d) = false ->
  Database.is_bounty_processed (db s) (listing_id w d) = false ->
  listing_location d = JStr loc ->
  filter is_notify (trace_of (poll_cycle w cfg s))
  = map (fun g => EvNotify (snd g) (JDict d) (JStr loc))
      (filter (tenant_matches (db s) loc) (Database.get_all_guilds (db s)))
  /\ Database.is_bounty_processed (db (state_of (poll_cycle w cfg s))) (listing_id w d) = true.
Proof.
  intros Hstore Hhttp Hid Hnew Hloc.
  pose proof (fetch_attempt_200 w cfg 1 50 s Hhttp) as Ea.
  change (normalize (JList [JDict d]) (next s)) with (Ok (JList [JDict d]), next s, @nil event)
    in Ea.
  rewrite result_of_run, trace_of_run in Ea.
  pose proof (fetch_bounties_first_ok _ _ _ _ _ Ea) as Ef.
  rewrite poll_cycle_run. cbv zeta. rewrite Ef, result_of_run, state_of_run, trace_of_run.
  cbn [py_len py_iter List.length].
  rewrite for_each_cons.
  rewrite (process_bounty_new w d (next s) Hid (Hstore _ _) Hnew (Hstore _ _)), Hstore.
  cbv zeta. rewrite Hloc. cbn [db tick next].
  set (marked := Database.mark_bounty_processed (db s) (clock w (S (S (tick s))))
                   (listing_id w d)).
  set (s3 := {| db := marked; tick := S (S (S (S (tick s)))) |}).
  destruct (fanout_returns w (JDict d) (JStr loc) (Database.get_all_guilds marked) s3)
    as (Hr & Hdb & _).
  pose proof (fanout_notify_trace w (JDict d) loc (Database.get_all_guilds marked) s3
                (fun n g => Hstore n _)) as Hn.
  destruct (for_each (Database.get_all_guilds marked)
              (notify_guild w (JDict d) (JStr loc)) s3) as [[r s4] t4].
  rewrite result_of_run, state_of_run, trace_of_run in *. subst r.
  cbn [for_each]. unfold ret. rewrite !result_of_run, !state_of_run, !trace_of_run.
  destruct (mark_keeps_tables (db s) (clock w (S (S (tick s)))) (listing_id w d)) as [Hg Hs].
  split.
  - cbn [filter is_notify app]. rewrite !filter_app. cbn [filter is_notify app].
    rewrite !app_nil_r, Hn.
    unfold Database.get_all_guilds. fold marked in Hg. rewrite Hg.
    f_equal. apply filter_ext. intros g. unfold tenant_matches, Database.get_subscriptions.
    subst s3. cbn [db]. fold marked in Hs. now rewrite Hs.
  - rewrite Hdb. apply mark_makes_processed.
Qed.

(** X27. From nothing to a notification: on a fresh store, a tenant
    sets a channel and subscribes to a keyword; a poll cycle then fetches
    one listing whose location contains the keyword. That cycle calls
    [send_bounty_notification] exactly once, for that channel and that
    listing, and records the id as processed; a second cycle returning the
    same listing sends nothing. *)
Theorem subscription_leads_to_one_notification :
  forall guild_id channel_id mention keyword d loc w cfg,
    is_empty channel_id = false ->
    is_empty (listing_id w d) = false ->
    listing_location d = JStr loc ->
    matches_location loc keyword = true ->
    (forall n op, store_fault w n op = None) ->
    (forall n, http w n = HttpResponse 200 (Ok (JList [JDict d]))) ->
    let s1 := Commands.state_of
                (Commands.run Commands.calm true
                   (Commands.SetChannelCmd guild_id channel_id mention) initial_state) in
    let s2 := Commands.state_of
                (Commands.run Commands.calm true
                   (Commands.SubscribeCmd guild_id keyword) s1) in
    let first := poll_cycle w cfg s2 in
    let second := poll_cycle w cfg (state_of first) in
    filter is_notify (trace_of first) = [EvNotify channel_id (JDict d) (JStr loc)]
    /\ Database.is_bounty_processed (db (state_of first)) (listing_id w d) = true
    /\ sends (trace_of second) = 0%nat.
Proof.
  intros guild_id channel_id mention keyword d loc w cfg Hc Hid Hloc Hm Hstore Hhttp
    s1 s2 first second.
  pose proof (@setup_store guild_id channel_id mention keyword Hc) as Hs2. fold s1 s2 in Hs2.
  destruct (@single_listing_cycle w cfg s2 d loc Hstore (Hhttp _) Hid
              ltac:(now rewrite Hs2) Hloc) as (Hn & Hp).
  fold first in Hn, Hp.
  split; [| split].
  - rewrite Hn, Hs2. cbn [Database.get_all_guilds Database.guild_settings filter].
    unfold tenant_matches, Database.get_subscriptions.
    cbn [fst Database.subscriptions filter Database.sub_guild].
    rewrite String.eqb_refl. cbn [map Database.sub_keyword existsb]. rewrite Hm.
    reflexivity.
  - exact Hp.
  - subst second.
    apply (@poll_cycle_no_resend w cfg (state_of first) [JDict d]).
    + destruct (fetch_bounties_200 w cfg 1 50 (state_of first) (Hhttp _)) as [_ ->].
      reflexivity.
    + intros d' [Hd' | []]. injection Hd' as <-. exact Hp.
Qed.

Lemma subscription_leads_to_one_notification_witness :
  filter is_notify
    (trace_of
       (poll_cycle world_failing_sink default_config
          (Commands.state_of
             (Commands.run Commands.calm true (Commands.SubscribeCmd "T" "Remote")
                (Commands.state_of
                   (Commands.run Commands.calm true
                      (Commands.SetChannelCmd "T" "77" "<#77>") initial_state))))))
  = [EvNotify "77" listing_remote (JStr "Remote")].
Proof.
  apply (proj1 (@subscription_leads_to_one_notification "T" "77" "<#77>" "Remote"
                  [("id", JStr "1"); ("location", JStr "Remote")] "Remote"
                  world_failing_sink default_config
                  eq_refl eq_refl eq_refl eq_refl (fun _ _ => eq_refl) (fun _ => eq_refl))).
Defined.

(** ** The poller task *)

Lemma set_nth_length l : forall i t, List.length (Lifecycle.set_nth l i t) = List.length l.
Proof.
  induction l as [|x l IH]; intros [|i] t; simpl; try reflexivity. now rewrite IH.
Qed.

Lemma set_nth_lookup l : forall i t j,
  nth_error (Lifecycle.set_nth l i t) j
  = if Nat.eqb i j
    then match nth_error l j with Some _ => Some t | None => None end
    else nth_error l j.
Proof.
  induction l as [|x l IH]; intros [|i] t [|j]; simpl; try reflexivity.
  - now destruct (Nat.eqb i j).
  - apply IH.
Qed.

Lemma step_keeps_handle b e :
  handle_holds_the_live b -> handle_holds_the_live (Lifecycle.apply_step b e).
Proof.
  intros Hb. destruct e as [[|] | | k]; cbn [Lifecycle.apply_step].
  - unfold Lifecycle.on_ready.
    assert (Hnone : (match Lifecycle.poller_task b with
                     | None => true
                     | Some i => Lifecycle.done b i
                     end) = true ->
                    forall i t, nth_error (Lifecycle.tasks b) i = Some t ->
                                Lifecycle.is_live t = false).
    { intros Hd i t Hi. destruct (Lifecycle.is_live t) eqn:El; [| reflexivity].
      pose proof (Hb i t Hi El) as Hp. rewrite Hp in Hd.
      unfold Lifecycle.done in Hd. rewrite Hi in Hd. destruct t; discriminate. }
    destruct (match Lifecycle.poller_task b with
              | None => true
              | Some i => Lifecycle.done b i
              end); [| exact Hb].
    intros i t Hi Hl. cbn [Lifecycle.tasks Lifecycle.poller_task] in *.
    destruct (Nat.lt_ge_cases i (List.length (Lifecycle.tasks b))) as [Hlt | Hge].
    + rewrite nth_error_app1 in Hi by assumption.
      rewrite (Hnone eq_refl i t Hi) in Hl. discriminate.
    + rewrite nth_error_app2 in Hi by assumption.
      destruct (i - List.length (Lifecycle.tasks b))%nat as [|k] eqn:Ek.
      * f_equal. lia.
      * simpl in Hi. destruct k; discriminate.
  - exact Hb.
  - unfold Lifecycle.close.
    destruct (Lifecycle.poller_task b) as [p |] eqn:Ep; [| exact Hb].
    destruct (nth_error (Lifecycle.tasks b) p) as [[| |] |] eqn:Et;
      try exact Hb.
    intros i t Hi Hl. cbn [Lifecycle.tasks Lifecycle.poller_task] in *.
    rewrite set_nth_lookup in Hi.
    destruct (Nat.eqb p i) eqn:E.
    + apply Nat.eqb_eq in E. now subst.
    + rewrite <- Ep. now apply (Hb i t Hi).
  - intros i t Hi Hl. cbn [Lifecycle.settle Lifecycle.tasks Lifecycle.poller_task] in *.
    rewrite set_nth_lookup in Hi.
    destruct (Nat.eqb k i) eqn:E.
    + destruct (nth_error (Lifecycle.tasks b) i); [| discriminate].
      injection Hi as <-. discriminate.
    + now apply (Hb i t).
Qed.

Lemma one_index_one_live l : forall p,
  (forall i t, nth_error l i = Some t -> Lifecycle.is_live t = true -> i = p) ->
  (List.length (filter Lifecycle.is_live l) <= 1)%nat.
Proof.
  induction l as [|x l IH]; intros p H; [simpl; lia |].
  cbn [filter]. destruct (Lifecycle.is_live x) eqn:Ex.
  - assert (p = 0%nat) by (symmetry; now apply (H 0%nat x)). subst p.
    assert (Hrest : filter Lifecycle.is_live l = []).
    { apply length_zero_iff_nil.
      destruct (filter Lifecycle.is_live l) as [|y ys] eqn:Ef; [reflexivity |].
      assert (Hy : In y (filter Lifecycle.is_live l)) by (rewrite Ef; now left).
      apply filter_In in Hy as [Hin Hl]. apply In_nth_error in Hin as [j Hj].
      specialize (H (S j) y Hj Hl). discriminate. }
    rewrite Hrest. simpl. lia.
  - destruct p as [|p].
    + assert (Hrest : filter Lifecycle.is_live l = []).
      { destruct (filter Lifecycle.is_live l) as [|y ys] eqn:Ef; [reflexivity |].
        assert (Hy : In y (filter Lifecycle.is_live l)) by (rewrite Ef; now left).
        apply filter_In in Hy as [Hin Hl]. apply In_nth_error in Hin as [j Hj].
        specialize (H (S j) y Hj Hl). discriminate. }
      rewrite Hrest. simpl. lia.
    + apply (IH p). intros i t Hi Hl. specialize (H (S i) t Hi Hl). lia.
Qed.

(** X28. The poller is never started twice at once: after any sequence
    of ready events (with or without a successful command sync), close
    calls and task endings, at most one poller task is not done, and it is
    the one [poller_task] points to. *)
Theorem at_most_one_live_poller :
  forall steps,
    let b := fold_left Lifecycle.apply_step steps Lifecycle.start in
    (Lifecycle.live b <= 1)%nat
    /\ (forall i t,
          nth_error (Lifecycle.tasks b) i = Some t ->
          Lifecycle.is_live t = true ->
          Lifecycle.poller_task b = Some i).
Proof.
  intros steps b.
  assert (H : handle_holds_the_live b).
  { subst b.
    assert (Hgen : forall b0, handle_holds_the_live b0 ->
                     handle_holds_the_live (fold_left Lifecycle.apply_step steps b0)).
    { induction steps as [|e rest IH]; intros b0 Hb0; [assumption |].
      simpl. apply IH. now apply step_keeps_handle. }
    apply Hgen. intros i t Hi. destruct i; discriminate. }
  split; [| exact H].
  unfold Lifecycle.live.
  destruct (Lifecycle.poller_task b) as [p |] eqn:Ep.
  - apply (@one_index_one_live _ p). intros i t Hi Hl.
    specialize (H i t Hi Hl). congruence.
  - apply (@one_index_one_live _ 0%nat). intros i t Hi Hl.
    specialize (H i t Hi Hl). congruence.
Qed.
